(** * Amfora: per-tab session state (display/tab.go, structs/structs.go)

    A shallow embedding of the tab bookkeeping of the Amfora Gemini
    browser: the [Page] record and its [Size], the tab history, paging,
    scroll save/restore, [hasContent], and the key handler installed by
    [makeNewTab] that drives keyboard link selection. *)

From Stdlib Require Import ZArith Lia List Ascii String.
From stdpp Require Import base option list strings gmap.

Local Open Scope string_scope.
Local Open Scope Z_scope.

(** ** Go's [int] on a 64-bit platform

    Values are integers of [Z]; every arithmetic result is brought back
    into [min_int, max_int] by [wrap], as two's complement does. *)
Module GoInt.

Definition max_int : Z := 2 ^ 63 - 1.
Definition min_int : Z := - 2 ^ 63.

Definition wrap (z : Z) : Z := (z + 2 ^ 63) mod 2 ^ 64 - 2 ^ 63.

Definition in_range (z : Z) : Prop := min_int <= z <= max_int.

Definition add (x y : Z) : Z := wrap (x + y).
Definition sub (x y : Z) : Z := wrap (x - y).
Definition mul (x y : Z) : Z := wrap (x * y).

(** [x / y] for a divisor that is not zero: the quotient truncated toward
    zero. *)
Definition quo (x y : Z) : Z := wrap (Z.quot x y).

(** [x % y] has the sign of [x]; a zero divisor raises a run-time panic,
    rendered as [None]. *)
Definition rem (x y : Z) : option Z :=
  if y =? 0 then None else Some (wrap (Z.rem x y)).

(** [len] of a slice or of a string (its number of bytes). *)
Definition len {A} (l : list A) : Z := Z.of_nat (List.length l).
Definition slen (s : string) : Z := Z.of_nat (String.length s).

End GoInt.

(** ** structs.Page *)

Inductive PageMode := ModeOff | ModeLinkSelect | ModeSearch.

(** The fields of [structs.Page]; [MadeAt], a [time.Time], is kept as a
    number.  display/tab.go spells the first field [Url]. *)
Record Page := mkPage {
  URL : string;
  Mediatype : string;
  RawMediatype : string;
  Raw : string;
  Content : string;
  MaxPreCols : Z;
  Links : list string;
  Row : Z;
  Column : Z;
  TermWidth : Z;
  Selected : string;
  SelectedID : string;
  Mode : PageMode;
  Favicon : string;
  MadeAt : Z
}.

(** The zero value [structs.Page{}]. *)
Definition emptyPage : Page :=
  mkPage "" "" "" "" "" 0 [] 0 0 0 "" "" ModeOff "" 0.

(** [func (p *Page) Size() int]: the five scalar lengths, then one
    addition per link, in slice order. *)
Definition Size (p : Page) : Z :=
  let n :=
    GoInt.add (GoInt.add (GoInt.add (GoInt.add
      (GoInt.slen (Raw p)) (GoInt.slen (Content p)))
      (GoInt.slen (URL p))) (GoInt.slen (Selected p)))
      (GoInt.slen (SelectedID p)) in
  fold_left (fun n l => GoInt.add n (GoInt.slen l)) (Links p) n.

(** The sum of the byte lengths the specification lists, as a
    mathematical integer. *)
Definition links_total (ls : list string) : Z :=
  foldr (fun l acc => GoInt.slen l + acc) 0 ls.

Definition byte_total (p : Page) : Z :=
  GoInt.slen (Raw p) + GoInt.slen (Content p) + GoInt.slen (URL p)
  + GoInt.slen (Selected p) + GoInt.slen (SelectedID p)
  + links_total (Links p).

(** ** Run-time outcomes *)

Inductive RuntimeError :=
  | NilDereference
  | IndexOutOfRange
  | SliceBoundsOutOfRange
  | IntegerDivideByZero.

Inductive result (A : Type) :=
  | Ok (a : A)
  | Panic (e : RuntimeError).
Arguments Ok {A} a.
Arguments Panic {A} e.

(** [s[i]] on a slice: a negative or too large index panics. *)
Definition index {A} (l : list A) (i : Z) : result A :=
  if (i <? 0) || (GoInt.len l <=? i) then Panic IndexOutOfRange
  else match l !! Z.to_nat i with
       | Some x => Ok x
       | None => Panic IndexOutOfRange
       end.

(** ** strconv (Go standard library)

    [Atoi] and [Itoa] as the handler uses them.  [Atoi] returns a value
    and an error; the handler drops the error and keeps the value: 0 when
    the input is empty or has an invalid byte ([ErrSyntax]), the largest
    magnitude of the right sign when the numeral does not fit an [int]
    ([ErrRange]). *)
Module strconv.

Inductive NumError := ErrSyntax | ErrRange.

Definition max_uint64 : Z := 2 ^ 64 - 1.

Definition byte_of (c : ascii) : Z := Z.of_N (N_of_ascii c).

(** The value of a decimal digit byte, if it is one. *)
Definition digit_of (c : ascii) : option Z :=
  let b := byte_of c in
  if (48 <=? b) && (b <=? 57) then Some (b - 48) else None.

(** The digit loop of [ParseUint(s, 10, 64)]: bytes are consumed left to
    right, and the first offending byte decides: a non-digit is a syntax
    error with value 0, an overflow a range error with the largest
    value. *)
Fixpoint parseUint_loop (s : string) (n : Z) : Z * option NumError :=
  match s with
  | EmptyString => (n, None)
  | String c rest =>
      match digit_of c with
      | None => (0, Some ErrSyntax)
      | Some d =>
          if max_uint64 `div` 10 + 1 <=? n then (max_uint64, Some ErrRange)
          else
            let n1 := n * 10 + d in
            if max_uint64 <? n1 then (max_uint64, Some ErrRange)
            else parseUint_loop rest n1
      end
  end.

Definition ParseUint (s : string) : Z * option NumError :=
  match s with
  | EmptyString => (0, Some ErrSyntax)
  | _ => parseUint_loop s 0
  end.

(** [ParseInt(s, 10, 0)]: an optional sign, then [ParseUint]; a magnitude
    that does not fit is clamped to the nearest bound with [ErrRange]. *)
Definition ParseInt (s : string) : Z * option NumError :=
  match s with
  | EmptyString => (0, Some ErrSyntax)
  | String c rest =>
      let neg := bool_decide (c = "-"%char) in
      let body := if bool_decide (c = "+"%char) || neg then rest else s in
      match ParseUint body with
      | (_, Some ErrSyntax) => (0, Some ErrSyntax)
      | (un, _) =>
          let cutoff := 2 ^ 63 in
          if negb neg && (cutoff <=? un) then (cutoff - 1, Some ErrRange)
          else if neg && (cutoff <? un) then (- cutoff, Some ErrRange)
          else (if neg then - un else un, None)
      end
  end.

(** The digit loop of [Atoi]'s fast path (inputs of 1 to 18 bytes). *)
Fixpoint atoi_fast_loop (s : string) (n : Z) : Z * option NumError :=
  match s with
  | EmptyString => (n, None)
  | String c rest =>
      match digit_of c with
      | None => (0, Some ErrSyntax)
      | Some d => atoi_fast_loop rest (GoInt.add (GoInt.mul n 10) d)
      end
  end.

Definition Atoi (s : string) : Z * option NumError :=
  let sLen := GoInt.slen s in
  if (0 <? sLen) && (sLen <? 19) then
    match s with
    | EmptyString => (0, Some ErrSyntax)
    | String c rest =>
        let signed := bool_decide (c = "-"%char) || bool_decide (c = "+"%char) in
        let body := if signed then rest else s in
        if signed && (GoInt.slen body <? 1) then (0, Some ErrSyntax)
        else
          match atoi_fast_loop body 0 with
          | (_, Some e) => (0, Some e)
          | (n, None) =>
              (if bool_decide (c = "-"%char) then GoInt.sub 0 n else n, None)
          end
    end
  else ParseInt s.

(** Decimal rendering of a magnitude; 20 digits cover every 64-bit value. *)
Definition digit_char (d : Z) : ascii := ascii_of_N (Z.to_N (48 + d)).

Fixpoint format_digits (fuel : nat) (u : Z) (acc : string) : string :=
  match fuel with
  | O => acc
  | S fuel' =>
      if u <? 10 then String (digit_char u) acc
      else format_digits fuel' (u `div` 10) (String (digit_char (u `mod` 10)) acc)
  end.

Definition Itoa (i : Z) : string :=
  if i <? 0 then String "-"%char (format_digits 20 (- i) "")
  else format_digits 20 i "".

End strconv.

(** ** The widgets the tab talks to

    Modelled from the spec: the viewport and status-bar capabilities
    (section 6).  Both widgets belong to the cview library; the model
    keeps what the tab code reads back from them: the scroll offset, the
    highlighted region ids, and the bar's label and text. *)
Module cview.

Record TextView := mkTextView {
  lineOffset : Z;
  columnOffset : Z;
  highlights : list string;
  scrollToHighlights : bool
}.

(** The view built by [NewTextView()]. *)
Definition NewTextView : TextView := mkTextView 0 0 [] false.

Definition GetScrollOffset (v : TextView) : Z * Z :=
  (lineOffset v, columnOffset v).

Definition ScrollTo (row column : Z) (v : TextView) : TextView :=
  mkTextView row column (highlights v) (scrollToHighlights v).

(** [Highlight(id)] replaces the highlighted set by the one region given;
    the empty id stands for no region. *)
Definition Highlight (id : string) (v : TextView) : TextView :=
  mkTextView (lineOffset v) (columnOffset v)
    (if bool_decide (id = "") then [] else [id]) (scrollToHighlights v).

Definition GetHighlights (v : TextView) : list string := highlights v.

(** [ScrollToHighlight()] asks for the next draw to bring the highlight
    into view; it does nothing without a highlight. *)
Definition ScrollToHighlight (v : TextView) : TextView :=
  match highlights v with
  | [] => v
  | _ => mkTextView (lineOffset v) (columnOffset v) (highlights v) true
  end.

Record InputField := mkInputField {
  label : string;
  text : string
}.

Definition SetLabel (s : string) (b : InputField) : InputField :=
  mkInputField s (text b).
Definition SetText (s : string) (b : InputField) : InputField :=
  mkInputField (label b) s.
Definition GetLabel (b : InputField) : string := label b.
Definition GetText (b : InputField) : string := text b.

End cview.

(** tcell key codes, as far as the handler tells them apart. *)
Inductive Key := KeyEsc | KeyEnter | KeyTab | KeyBacktab | KeyOther.

Global Instance Key_eq_dec : EqDecision Key.
Proof. solve_decision. Defined.

(** ** display/tab.go: data *)

Inductive tabMode := modeOff | modeLinkSelect.

Record tabHistory := mkHistory {
  urls : list string;
  pos : Z
}.

(** Pages live in a store and are reached through addresses, since a tab
    and the cache hold the same [*structs.Page]. *)
Definition addr := positive.
Abbreviation store := (gmap positive Page).

(** [history] is allocated by [makeNewTab] and owned by its tab; it is
    kept inline.  [page] and [view] are pointers that [hasContent] tests
    against nil.  The reformat mutex plays no part in the functions
    below and is left out. *)
Record tab := mkTab {
  page : option addr;
  view : option cview.TextView;
  mode : tabMode;
  history : tabHistory;
  selected : string;
  selectedID : string;
  barLabel : string;
  barText : string
}.

Definition set_view (v : cview.TextView) (t : tab) : tab :=
  mkTab (page t) (Some v) (mode t) (history t) (selected t) (selectedID t)
    (barLabel t) (barText t).
Definition set_mode (m : tabMode) (t : tab) : tab :=
  mkTab (page t) (view t) m (history t) (selected t) (selectedID t)
    (barLabel t) (barText t).
Definition set_history (h : tabHistory) (t : tab) : tab :=
  mkTab (page t) (view t) (mode t) h (selected t) (selectedID t)
    (barLabel t) (barText t).
Definition set_selected (s : string) (t : tab) : tab :=
  mkTab (page t) (view t) (mode t) (history t) s (selectedID t)
    (barLabel t) (barText t).
Definition set_selectedID (s : string) (t : tab) : tab :=
  mkTab (page t) (view t) (mode t) (history t) (selected t) s
    (barLabel t) (barText t).
Definition set_bar (l x : string) (t : tab) : tab :=
  mkTab (page t) (view t) (mode t) (history t) (selected t) (selectedID t)
    l x.

(** The page a tab points at: [None] for a nil pointer. *)
Definition deref (st : store) (t : tab) : option Page :=
  a ← page t; st !! a.

(** ** display/tab.go: methods of [*tab] *)

(** [addToHistory]: the reslice [urls[:pos+1]] panics when [pos+1] is
    negative (its upper bound is below [len] inside the branch). *)
Definition addToHistory (u : string) (h : tabHistory) : result tabHistory :=
  let cut :=
    if pos h <? GoInt.sub (GoInt.len (urls h)) 1 then
      let hi := GoInt.add (pos h) 1 in
      if hi <? 0 then Panic SliceBoundsOutOfRange
      else Ok (take (Z.to_nat hi) (urls h))
    else Ok (urls h) in
  match cut with
  | Panic e => Panic e
  | Ok us => Ok (mkHistory (us ++ [u]) (GoInt.add (pos h) 1))
  end.

Definition tab_addToHistory (u : string) (t : tab) : result tab :=
  match addToHistory u (history t) with
  | Ok h => Ok (set_history h t)
  | Panic e => Panic e
  end.

(** [(termH/4)*3], the step of both paging functions. *)
Definition three_quarters (termH : Z) : Z :=
  GoInt.mul (GoInt.quo termH 4) 3.

Definition pageUp (termH : Z) (t : tab) : result tab :=
  match view t with
  | None => Panic NilDereference
  | Some v =>
      let '(row, col) := cview.GetScrollOffset v in
      Ok (set_view (cview.ScrollTo (GoInt.sub row (three_quarters termH)) col v) t)
  end.

Definition pageDown (termH : Z) (t : tab) : result tab :=
  match view t with
  | None => Panic NilDereference
  | Some v =>
      let '(row, col) := cview.GetScrollOffset v in
      Ok (set_view (cview.ScrollTo (GoInt.add row (three_quarters termH)) col v) t)
  end.

(** [strings.HasPrefix]. *)
Definition HasPrefix (s p : string) : bool := String.prefix p s.

Definition hasContent (st : store) (t : tab) : bool :=
  match deref st t, view t with
  | None, _ | _, None => false
  | Some p, Some _ =>
      if bool_decide (URL p = "") then false
      else if HasPrefix (URL p) "about:" then false
      else if bool_decide (Content p = "") then false
      else true
  end.

(** [saveScroll] writes through the page pointer, so every holder of the
    address sees the new offsets.  An address with no page behind it does
    not occur in Go; the model treats it like nil. *)
Definition saveScroll (st : store) (t : tab) : result store :=
  match view t with
  | None => Panic NilDereference
  | Some v =>
      let '(row, col) := cview.GetScrollOffset v in
      match page t with
      | None => Panic NilDereference
      | Some a =>
          match st !! a with
          | None => Panic NilDereference
          | Some p =>
              Ok (<[a := mkPage (URL p) (Mediatype p) (RawMediatype p) (Raw p)
                          (Content p) (MaxPreCols p) (Links p) row col
                          (TermWidth p) (Selected p) (SelectedID p) (Mode p)
                          (Favicon p) (MadeAt p)]> st)
          end
      end
  end.

Definition applyScroll (st : store) (t : tab) : result tab :=
  match deref st t with
  | None => Panic NilDereference
  | Some p =>
      match view t with
      | None => Panic NilDereference
      | Some v => Ok (set_view (cview.ScrollTo (Row p) (Column p) v) t)
      end
  end.

Definition saveBottomBar (bar : cview.InputField) (t : tab) : tab :=
  set_bar (cview.GetLabel bar) (cview.GetText bar) t.

Definition applyBottomBar (t : tab) (bar : cview.InputField) : cview.InputField :=
  cview.SetText (barText t) (cview.SetLabel (barLabel t) bar).

(** [makeNewTab]: a fresh zero page, a new view, mode off, and the zero
    history [&tabHistory{}] (no urls, [pos] 0). *)
Definition makeNewTab (st : store) : tab * store :=
  let a := fresh (dom st) in
  (mkTab (Some a) (Some cview.NewTextView) modeOff (mkHistory [] 0) "" "" "" "",
   <[a := emptyPage]> st).

(** ** The key handler installed by [makeNewTab]

    The handler works on one tab ([tabs[tab]], with [tab] a copy of
    [curTab]) and on the shared bottom bar; the page is only read.  It is
    written in a state monad over those two, with three ways to stop
    early: a [return], a panic, and the call of [followLink], which the
    handler makes last and which is defined outside this file. *)

Record focus := mkFocus {
  f_tab : tab;
  f_bar : cview.InputField
}.

Inductive halt :=
  | Returns
  | Panics (e : RuntimeError)
  | Follows (tabIx : Z) (base rel : string).

Inductive step (A : Type) :=
  | Next (a : A) (s : focus)
  | Halt (h : halt) (s : focus).
Arguments Next {A} a s.
Arguments Halt {A} h s.

Definition M (A : Type) : Type := focus → step A.

Global Instance M_ret : MRet M := λ A a s, Next a s.
Global Instance M_bind : MBind M := λ A B f m s,
  match m s with
  | Next a s' => f a s'
  | Halt h s' => Halt h s'
  end.

Definition stop {A} (h : halt) : M A := λ s, Halt h s.

Definition lift {A} (r : result A) : M A :=
  match r with
  | Ok a => mret a
  | Panic e => stop (Panics e)
  end.

Definition getView : M cview.TextView := λ s,
  match view (f_tab s) with
  | Some v => Next v s
  | None => Halt (Panics NilDereference) s
  end.

Definition putView (v : cview.TextView) : M unit := λ s,
  Next () (mkFocus (set_view v (f_tab s)) (f_bar s)).

Definition withView (f : cview.TextView → cview.TextView) : M unit :=
  v ← getView; putView (f v).

Definition withTab (f : tab → tab) : M unit := λ s,
  Next () (mkFocus (f (f_tab s)) (f_bar s)).

Definition withBar (f : cview.InputField → cview.InputField) : M unit := λ s,
  Next () (mkFocus (f_tab s) (f (f_bar s))).

Definition getPage (pg : option Page) : M Page :=
  match pg with
  | Some p => mret p
  | None => stop (Panics NilDereference)
  end.

Definition doneFunc_body (tab : Z) (pg : option Page) (key : Key) : M unit :=
  (if bool_decide (key = KeyEsc) then
     withView (cview.Highlight "");;
     withBar (cview.SetLabel "");;
     p ← getPage pg;
     withBar (cview.SetText (URL p));;
     withTab (set_mode modeOff)
   else mret ());;
  v ← getView;
  let currentSelection := cview.GetHighlights v in
  p ← getPage pg;
  let numSelections := GoInt.len (Links p) in
  if bool_decide (key = KeyEnter) then
    if (0 <? GoInt.len currentSelection) && (0 <? GoInt.len (Links p)) then
      withBar (cview.SetLabel "");;
      withTab (set_mode modeOff);;
      id ← lift (index currentSelection 0);
      let linkN := fst (strconv.Atoi id) in
      link ← lift (index (Links p) linkN);
      stop (Follows tab (URL p) link)
    else
      withView (cview.Highlight "0");;
      withView cview.ScrollToHighlight;;
      withBar (cview.SetLabel "[::b]Link: [::-]");;
      l0 ← lift (index (Links p) 0);
      withBar (cview.SetText l0);;
      withTab (set_selected l0);;
      withTab (set_selectedID "0")
  else if 0 <? GoInt.len currentSelection then
    id ← lift (index currentSelection 0);
    let index0 := fst (strconv.Atoi id) in
    index1 ←
      match key with
      | KeyTab =>
          match GoInt.rem (GoInt.add index0 1) numSelections with
          | Some r => mret r
          | None => stop (Panics IntegerDivideByZero)
          end
      | KeyBacktab =>
          match GoInt.rem (GoInt.add (GoInt.sub index0 1) numSelections)
                  numSelections with
          | Some r => mret r
          | None => stop (Panics IntegerDivideByZero)
          end
      | _ => stop Returns
      end;
    withView (cview.Highlight (strconv.Itoa index1));;
    withView cview.ScrollToHighlight;;
    withBar (cview.SetLabel "[::b]Link: [::-]");;
    l ← lift (index (Links p) index1);
    withBar (cview.SetText l);;
    withTab (set_selected l);;
    withTab (set_selectedID id)
  else mret ().

(** The session globals the handler reaches. *)
Record World := mkWorld {
  pages : store;
  tabs : list tab;
  curTab : Z;
  termH : Z;
  bottomBar : cview.InputField
}.

Definition commit (w : World) (tab : Z) (s : focus) : World :=
  mkWorld (pages w) (<[Z.to_nat tab := f_tab s]> (tabs w)) (curTab w)
    (termH w) (f_bar s).

(** [defer tabs[tab].saveBottomBar()]. *)
Definition deferred (s : focus) : focus :=
  mkFocus (saveBottomBar (f_bar s) (f_tab s)) (f_bar s).

(** One run of the handler.  On [Returns] and [Panics] the deferred call
    has run.  On [Follows] the world is the one in which [followLink] is
    entered: only the [return] and the deferred call come after it. *)
Definition doneFunc (key : Key) (w : World) : halt * World :=
  let tab := curTab w in
  match index (tabs w) tab with
  | Panic e => (Panics e, w)
  | Ok t =>
      match doneFunc_body tab (deref (pages w) t) key (mkFocus t (bottomBar w)) with
      | Next _ s | Halt Returns s => (Returns, commit w tab (deferred s))
      | Halt (Panics e) s => (Panics e, commit w tab (deferred s))
      | Halt (Follows i b r) s => (Follows i b r, commit w tab s)
      end
  end.

(** The deferred call when it runs after [followLink].  Go binds the
    receiver [tabs[tab]] when the [defer] statement runs; this model knows
    a tab by its position in [tabs] only, so the tab is found again by
    that position, which is the same tab as long as [followLink] neither
    reorders nor removes tabs. *)
Definition run_deferred (tab : Z) (w : World) : World :=
  match index (tabs w) tab with
  | Ok t => commit w tab (deferred (mkFocus t (bottomBar w)))
  | Panic _ => w
  end.

(** The handler completed by a given [followLink]. *)
Definition doneFunc_with (followLink : Z → string → string → World → World)
    (key : Key) (w : World) : halt * World :=
  match doneFunc key w with
  | (Follows i b r, w') => (Returns, run_deferred (curTab w) (followLink i b r w'))
  | o => o
  end.

(** The page of the size example in the specification. *)
Definition size_example : Page :=
  mkPage "u" "" "" "abc" "defgh" 0 ["x"; "yz"] 0 0 0 "" "" ModeOff "" 0.

(** The scroll offset a tab's view reports, if the tab has a view. *)
Definition scrollOffset (t : tab) : option (Z * Z) :=
  cview.GetScrollOffset <$> view t.

(** The paging step in the specification's words: 75% of the terminal
    height, rounded down. *)
Definition three_quarters_floor (termH : Z) : Z := (3 * termH) `div` 4.

(** Three successive pushes, as in the history example of the
    specification. *)
Definition push3 (a b c : string) (h : tabHistory) : result tabHistory :=
  match addToHistory a h with
  | Ok h1 =>
      match addToHistory b h1 with
      | Ok h2 => addToHistory c h2
      | Panic e => Panic e
      end
  | Panic e => Panic e
  end.

(** The index a Tab or Backtab key moves the selection to, in the
    specification's words. *)
Definition next_index (key : Key) (i n : Z) : Z :=
  match key with
  | KeyTab => (i + 1) `mod` n
  | _ => (i - 1 + n) `mod` n
  end.

(** What the handler leaves behind once link [j], with target [l], has
    been highlighted, starting from a view [v] whose first highlight was
    [id]: the tab before the deferred call, and the bar. *)
Definition link_label : string := "[::b]Link: [::-]".

Definition selecting (j : Z) (l id : string) (v : cview.TextView) (t : tab) : tab :=
  mkTab (page t)
    (Some (cview.mkTextView (cview.lineOffset v) (cview.columnOffset v)
             [strconv.Itoa j] true))
    (mode t) (history t) l id (barLabel t) (barText t).

Definition link_bar (l : string) (bar : cview.InputField) : cview.InputField :=
  cview.SetText l (cview.SetLabel link_label bar).

(** The world in which [followLink] is entered. *)
Definition dispatch_world (w : World) (t : tab) : World :=
  commit w (curTab w)
    (mkFocus (set_mode modeOff t) (cview.SetLabel "" (bottomBar w))).

(** A session that has just opened its first tab. *)
Definition new_tab_world : World :=
  let '(t, st) := makeNewTab ∅ in
  mkWorld st [t] 0 24 (cview.mkInputField "" "").

(** A session whose only tab shows a page with the given links and has
    the region named by [id] highlighted. *)
Definition example_page (links : list string) : Page :=
  mkPage "gemini://example.org/" "text/gemini" "text/gemini" "" "text" 0
    links 0 0 80 "" "" ModeOff "" 0.

Definition example_view (id : string) : cview.TextView :=
  cview.mkTextView 0 0 [id] false.

Definition example_tab (id : string) : tab :=
  mkTab (Some 1%positive) (Some (example_view id)) modeOff
    (mkHistory ["gemini://example.org/"] 0) "" "" "" "".

Definition example_world (links : list string) (id : string) : World :=
  mkWorld {[ 1%positive := example_page links ]} [example_tab id] 0 24
    (cview.mkInputField "" "gemini://example.org/").

(** Pushing a list of urls, one [addToHistory] after the other. *)
Fixpoint pushAll (us : list string) (h : tabHistory) : result tabHistory :=
  match us with
  | [] => Ok h
  | u :: us' =>
      match addToHistory u h with
      | Ok h' => pushAll us' h'
      | Panic e => Panic e
      end
  end.

(** What the statements of the handler may change in the tab it works
    on: never the page pointer or the history, and the mode only by
    switching it off. *)
Definition tab_frame (t t' : tab) : Prop :=
  page t' = page t ∧ history t' = history t
  ∧ (mode t' = mode t ∨ mode t' = modeOff).

Definition focus_frame (s s' : focus) : Prop :=
  tab_frame (f_tab s) (f_tab s').

(** A monadic step keeps [focus_frame] however it ends. *)
Definition keeps_frame {A} (m : M A) : Prop :=
  ∀ s, match m s with
       | Next _ s' | Halt _ s' => focus_frame s s'
       end.

(** The bar as the tab has saved it agrees with the bar itself. *)
Definition bar_saved (t : tab) (bar : cview.InputField) : Prop :=
  barLabel t = cview.GetLabel bar ∧ barText t = cview.GetText bar.

(** * Properties *)

(** ** Integer arithmetic without overflow *)

Lemma wrap_in_range z : GoInt.in_range z → GoInt.wrap z = z.
Proof.
  unfold GoInt.in_range, GoInt.min_int, GoInt.max_int, GoInt.wrap.
  intros Hz. rewrite Z.mod_small; lia.
Qed.

Lemma slen_nonneg s : 0 <= GoInt.slen s.
Proof. unfold GoInt.slen. lia. Qed.

Lemma len_nonneg {A} (l : list A) : 0 <= GoInt.len l.
Proof. unfold GoInt.len. lia. Qed.

Lemma add_exact x y :
  GoInt.in_range (x + y) → GoInt.add x y = x + y.
Proof. apply wrap_in_range. Qed.

Lemma sub_exact x y :
  GoInt.in_range (x - y) → GoInt.sub x y = x - y.
Proof. apply wrap_in_range. Qed.

(** ** Page size *)

Lemma links_total_nonneg ls : 0 <= links_total ls.
Proof.
  induction ls as [|l ls IH]; simpl; [lia|].
  pose proof (slen_nonneg l). lia.
Qed.

(** The loop over the links adds their lengths to the running total, as
    long as the grand total fits an [int]. *)
Lemma Size_loop ls : ∀ n,
  0 <= n → n + links_total ls <= GoInt.max_int →
  fold_left (fun n l => GoInt.add n (GoInt.slen l)) ls n = n + links_total ls.
Proof.
  induction ls as [|l ls IH]; intros n Hn Hmax; simpl in *; [lia|].
  pose proof (slen_nonneg l) as Hl.
  pose proof (links_total_nonneg ls) as Hls.
  rewrite add_exact.
  - rewrite IH; lia.
  - unfold GoInt.in_range, GoInt.min_int, GoInt.max_int in *. lia.
Qed.

(** C7. [Size] is a function of the page alone (it reads the page and
    yields an integer, nothing else), and its value is the sum of the byte
    lengths of [Raw], [Content], [URL], [Selected], [SelectedID] and of
    every link, whenever that sum is representable as an [int]; on the
    example of the specification it is 12. *)
Theorem Size_is_byte_total (p : Page) :
  byte_total p <= GoInt.max_int →
  Size p = byte_total p ∧ Size size_example = 12.
Proof.
  intros Hmax. split; [|reflexivity].
  unfold Size, byte_total in *.
  pose proof (slen_nonneg (Raw p)). pose proof (slen_nonneg (Content p)).
  pose proof (slen_nonneg (URL p)). pose proof (slen_nonneg (Selected p)).
  pose proof (slen_nonneg (SelectedID p)).
  pose proof (links_total_nonneg (Links p)).
  assert (Hr : ∀ z, 0 <= z <= GoInt.max_int → GoInt.in_range z).
  { unfold GoInt.in_range, GoInt.min_int, GoInt.max_int. lia. }
  rewrite (add_exact (GoInt.slen (Raw p))) by (apply Hr; lia).
  rewrite (add_exact _ (GoInt.slen (URL p))) by (apply Hr; lia).
  rewrite (add_exact _ (GoInt.slen (Selected p))) by (apply Hr; lia).
  rewrite (add_exact _ (GoInt.slen (SelectedID p))) by (apply Hr; lia).
  rewrite Size_loop; lia.
Qed.

Lemma Size_is_byte_total_witness :
  byte_total size_example <= GoInt.max_int
  ∧ Size size_example = byte_total size_example ∧ Size size_example = 12.
Proof.
  split; [vm_compute; discriminate|].
  apply (Size_is_byte_total size_example). vm_compute. discriminate.
Defined.

(** ** hasContent *)

Lemma HasPrefix_spec s p :
  HasPrefix s p = true ↔ ∃ rest, s = (p ++ rest)%string.
Proof.
  unfold HasPrefix. revert s.
  induction p as [|c p IH]; intros s; simpl.
  - split; [intros _; exists s; by destruct s | by destruct s].
  - destruct s as [|d s]; simpl.
    + split; [discriminate | intros [rest Hrest]; discriminate].
    + destruct (Ascii.ascii_dec c d) as [->|Hne].
      * rewrite IH. change (String d p +:+ ?r) with (String d (p +:+ r)).
        split; intros [rest Hrest]; exists rest; congruence.
      * change (String c p +:+ ?r) with (String c (p +:+ r)).
        split; [discriminate | intros [rest Hrest]; congruence].
Qed.

(** C8. [hasContent] is false exactly when the page pointer or the view
    is nil, or the page's URL is empty, or the URL starts with "about:",
    or the rendered content is empty; the content plays no part once the
    URL is empty or an "about:" one.  In every other case it is true. *)
Theorem hasContent_false_iff (st : store) (t : tab) :
  hasContent st t = false ↔
    deref st t = None ∨ view t = None
    ∨ ∃ p, deref st t = Some p
           ∧ (URL p = "" ∨ (∃ rest, URL p = ("about:" ++ rest)%string)
              ∨ Content p = "").
Proof.
  unfold hasContent.
  destruct (deref st t) as [p|]; [|by split; [left|]].
  destruct (view t) as [v|]; [|by split; [right; left|]].
  destruct (bool_decide_reflect (URL p = "")) as [Hu|Hu].
  { split; [|done]. intros _. right. right. exists p. auto. }
  destruct (HasPrefix (URL p) "about:") eqn:Hpre.
  { split; [|done]. intros _. right. right. exists p.
    split; [done|]. right. left. by apply HasPrefix_spec. }
  destruct (bool_decide_reflect (Content p = "")) as [Hc|Hc].
  { split; [|done]. intros _. right. right. exists p. auto. }
  split; [discriminate|].
  intros [H|[H|(q & Hq & [H|[H|H]])]]; try discriminate;
    injection Hq as <-; try done.
  apply HasPrefix_spec in H. congruence.
Qed.

(** ** Scroll save and restore *)

(** C9. [saveScroll] stores the view's offset in the page the tab points
    at (so every holder of that address sees it).  If afterwards a tab
    points at the same page and the stored row and column of that page
    have not been touched, then [applyScroll] puts the viewport at
    exactly the captured offset, wherever the viewport is at that moment
    (so in particular when it has not moved since the save). *)
Theorem scroll_round_trip (st : store) (t : tab) v a p row col :
  view t = Some v → page t = Some a → st !! a = Some p →
  cview.GetScrollOffset v = (row, col) →
  ∃ st1 p1,
    saveScroll st t = Ok st1 ∧ st1 !! a = Some p1
    ∧ Row p1 = row ∧ Column p1 = col
    ∧ ∀ (st2 : store) t2 v2 p2,
        page t2 = Some a → view t2 = Some v2 →
        st2 !! a = Some p2 → Row p2 = Row p1 → Column p2 = Column p1 →
        ∃ t3, applyScroll st2 t2 = Ok t3 ∧ scrollOffset t3 = Some (row, col).
Proof.
  intros Hv Ha Hp Hoff. unfold saveScroll. rewrite Hv, Hoff, Ha, Hp.
  eexists _, _. split; [reflexivity|]. split; [apply lookup_insert_eq|].
  simpl. do 2 (split; [reflexivity|]).
  intros st2 t2 v2 p2 Ha2 Hv2 Hp2 Hrow Hcol.
  unfold applyScroll, deref. rewrite Ha2. simpl. rewrite Hp2, Hv2.
  eexists. split; [reflexivity|].
  unfold scrollOffset. simpl. by rewrite Hrow, Hcol.
Qed.

Lemma scroll_round_trip_witness :
  let v := cview.mkTextView 7 3 [] false in
  let t := mkTab (Some 1%positive) (Some v) modeOff (mkHistory [] 0) "" "" "" "" in
  let st : store := {[ 1%positive := emptyPage ]} in
  let t2 := mkTab (Some 1%positive) (Some (cview.mkTextView 40 0 ["2"] true))
              modeOff (mkHistory [] 0) "" "" "" "" in
  ∃ st1 t3,
    saveScroll st t = Ok st1
    ∧ applyScroll st1 t2 = Ok t3 ∧ scrollOffset t3 = Some (7, 3).
Proof.
  intros v t st t2.
  destruct (scroll_round_trip st t v 1%positive emptyPage 7 3
              eq_refl eq_refl eq_refl eq_refl)
    as (st1 & p1 & Hsave & Hp1 & Hrow & Hcol & Hrestore).
  destruct (Hrestore st1 t2 (cview.mkTextView 40 0 ["2"] true) p1
              eq_refl eq_refl Hp1 eq_refl eq_refl) as (t3 & Happly & Hoff).
  exists st1, t3. split; [exact Hsave|]. split; [exact Happly|exact Hoff].
Defined.

(** ** Paging *)

Lemma three_quarters_exact termH :
  GoInt.in_range termH → three_quarters termH = 3 * (termH ÷ 4).
Proof.
  intros Hr. unfold three_quarters, GoInt.mul, GoInt.quo.
  unfold GoInt.in_range, GoInt.min_int, GoInt.max_int in Hr.
  assert (Hq : - 2 ^ 61 <= termH ÷ 4 <= 2 ^ 61).
  { destruct (Z.le_gt_cases 0 termH) as [Hpos|Hneg].
    - rewrite Z.quot_div_nonneg by lia.
      split; [apply Z.le_trans with 0; [lia|apply Z.div_pos; lia]|].
      apply Z.div_le_upper_bound; lia.
    - rewrite <- (Z.opp_involutive termH) at 1 2. rewrite Z.quot_opp_l by lia.
      rewrite Z.quot_div_nonneg by lia.
      assert (0 <= (- termH) `div` 4 <= 2 ^ 61); [|lia].
      split; [apply Z.div_pos; lia|apply Z.div_le_upper_bound; lia]. }
  rewrite (wrap_in_range (termH ÷ 4)).
  - rewrite wrap_in_range; [lia|].
    unfold GoInt.in_range, GoInt.min_int, GoInt.max_int. lia.
  - unfold GoInt.in_range, GoInt.min_int, GoInt.max_int. lia.
Qed.

(** C3, as the code has it.  [pageDown] moves the viewport to
    [row + 3 * (termH / 4)] and [pageUp] to [row - 3 * (termH / 4)], the
    quotient being Go's integer division: a quarter of the height is
    rounded first and tripled after.  The column is kept.  For a height
    that is not negative this step is at most the rounded-down 75% of the
    specification, falls short of it by at most 2, and equals it exactly
    when [termH mod 4] is 0 or 1. *)
Theorem page_step_is_three_quarters_of_height termH t v row col :
  view t = Some v → cview.GetScrollOffset v = (row, col) →
  GoInt.in_range termH →
  GoInt.in_range (row + 3 * (termH ÷ 4)) →
  GoInt.in_range (row - 3 * (termH ÷ 4)) →
  (∃ t', pageDown termH t = Ok t'
         ∧ scrollOffset t' = Some (row + 3 * (termH ÷ 4), col))
  ∧ (∃ t', pageUp termH t = Ok t'
           ∧ scrollOffset t' = Some (row - 3 * (termH ÷ 4), col))
  ∧ (0 <= termH →
     three_quarters_floor termH - 2 <= 3 * (termH ÷ 4) <= three_quarters_floor termH
     ∧ (3 * (termH ÷ 4) = three_quarters_floor termH ↔ termH `mod` 4 <= 1)).
Proof.
  intros Hv Hoff HtermH Hdown Hup.
  unfold pageDown, pageUp. rewrite Hv, Hoff.
  rewrite (three_quarters_exact termH HtermH).
  rewrite add_exact, sub_exact by assumption.
  split; [eexists; split; [reflexivity|reflexivity]|].
  split; [eexists; split; [reflexivity|reflexivity]|].
  intros Hpos. unfold three_quarters_floor.
  rewrite Z.quot_div_nonneg by lia.
  pose proof (Z.div_mod termH 4 ltac:(lia)) as Hdm.
  pose proof (Z.mod_pos_bound termH 4 ltac:(lia)) as Hm.
  assert (Hfl : (3 * termH) `div` 4
                = 3 * (termH `div` 4) + (3 * (termH `mod` 4)) `div` 4).
  { rewrite Hdm at 1.
    replace (3 * (4 * termH `div` 4 + termH `mod` 4))
      with (3 * (termH `mod` 4) + (3 * (termH `div` 4)) * 4) by lia.
    rewrite Z.div_add by lia. lia. }
  rewrite Hfl.
  assert (Hcases : termH `mod` 4 = 0 ∨ termH `mod` 4 = 1
                   ∨ termH `mod` 4 = 2 ∨ termH `mod` 4 = 3) by lia.
  destruct Hcases as [Hc|[Hc|[Hc|Hc]]]; rewrite Hc;
    [change ((3 * 0) `div` 4) with 0 | change ((3 * 1) `div` 4) with 0
    |change ((3 * 2) `div` 4) with 1 | change ((3 * 3) `div` 4) with 2]; lia.
Qed.

Lemma page_step_is_three_quarters_of_height_witness :
  let v := cview.mkTextView 10 2 [] false in
  let t := mkTab None (Some v) modeOff (mkHistory [] 0) "" "" "" "" in
  (∃ t', pageDown 24 t = Ok t' ∧ scrollOffset t' = Some (10 + 3 * (24 ÷ 4), 2))
  ∧ (∃ t', pageUp 24 t = Ok t' ∧ scrollOffset t' = Some (10 - 3 * (24 ÷ 4), 2))
  ∧ (0 <= 24 →
     three_quarters_floor 24 - 2 <= 3 * (24 ÷ 4) <= three_quarters_floor 24
     ∧ (3 * (24 ÷ 4) = three_quarters_floor 24 ↔ 24 `mod` 4 <= 1)).
Proof.
  intros v t.
  apply (page_step_is_three_quarters_of_height 24 t v 10 2);
    try reflexivity; vm_compute; split; discriminate.
Defined.

(** C3 as stated fails: in a terminal 6 rows high, 75% rounded down is 4
    rows, and [pageDown] from row 0 lands on row 3. *)
Lemma pageDown_misses_floor_at_height_6 :
  let t := mkTab None (Some (cview.mkTextView 0 0 [] false)) modeOff
             (mkHistory [] 0) "" "" "" "" in
  ∃ t', pageDown 6 t = Ok t'
        ∧ scrollOffset t' = Some (3, 0)
        ∧ three_quarters_floor 6 = 4
        ∧ scrollOffset t' ≠ Some (0 + three_quarters_floor 6, 0).
Proof. intros t. eexists. repeat split. discriminate. Qed.

(** ** History *)

(** What [addToHistory] does when the cursor is inside the list, or just
    before its first entry: the entries after the cursor go, the url is
    appended, and the cursor is on it. *)
Lemma addToHistory_within_list u h :
  -1 <= pos h <= GoInt.len (urls h) - 1 → GoInt.len (urls h) < GoInt.max_int →
  ∃ h', addToHistory u h = Ok h'
        ∧ urls h' = (take (Z.to_nat (pos h + 1)) (urls h) ++ [u])%list
        ∧ pos h' = GoInt.len (urls h') - 1.
Proof.
  intros Hpos Hlen. pose proof (len_nonneg (urls h)) as Hn.
  assert (Hr : ∀ z, -1 <= z <= GoInt.max_int → GoInt.in_range z).
  { unfold GoInt.in_range, GoInt.min_int, GoInt.max_int. lia. }
  unfold addToHistory.
  rewrite sub_exact, add_exact by (apply Hr; lia).
  destruct (Z.ltb_spec (pos h) (GoInt.len (urls h) - 1)) as [Hlt|Hge].
  - destruct (Z.ltb_spec (pos h + 1) 0) as [?|_]; [lia|].
    eexists. split; [reflexivity|]. simpl. split; [reflexivity|].
    unfold GoInt.len in *. rewrite length_app, length_take. simpl. lia.
  - eexists. split; [reflexivity|]. simpl.
    assert (Hfull : (Z.to_nat (pos h + 1) = length (urls h))%nat).
    { unfold GoInt.len in *. lia. }
    rewrite Hfull, firstn_all. split; [reflexivity|].
    unfold GoInt.len in *. rewrite length_app. simpl. lia.
Qed.

(** C1, at the history [makeNewTab] creates.  The new history has no urls
    and cursor 0, not -1; each push adds one to the cursor, so after
    pushing A, B and C the urls are [A, B, C] and the cursor is 3, one
    past the last entry. *)
Theorem addToHistory_new_tab_ABC (st : store) :
  history (makeNewTab st).1 = mkHistory [] 0
  ∧ push3 "A" "B" "C" (history (makeNewTab st).1)
    = Ok (mkHistory ["A"; "B"; "C"] 3)
  ∧ 3 ≠ GoInt.len ["A"; "B"; "C"] - 1.
Proof. split; [reflexivity|]. split; [reflexivity|discriminate]. Qed.

(** ** Itoa and Atoi

    The ids the handler writes with [Itoa] read back with [Atoi]. *)

Lemma digit_of_digit_char d :
  0 <= d < 10 → strconv.digit_of (strconv.digit_char d) = Some d.
Proof.
  intros Hd.
  assert (Hcases : d = 0 ∨ d = 1 ∨ d = 2 ∨ d = 3 ∨ d = 4 ∨ d = 5 ∨ d = 6
                   ∨ d = 7 ∨ d = 8 ∨ d = 9) by lia.
  repeat (destruct Hcases as [Hc|Hcases]; [subst d; reflexivity|]).
  subst d; reflexivity.
Qed.

Lemma digit_char_not_sign d :
  0 <= d < 10 →
  strconv.digit_char d ≠ "-"%char ∧ strconv.digit_char d ≠ "+"%char.
Proof.
  intros Hd.
  assert (Hcases : d = 0 ∨ d = 1 ∨ d = 2 ∨ d = 3 ∨ d = 4 ∨ d = 5 ∨ d = 6
                   ∨ d = 7 ∨ d = 8 ∨ d = 9) by lia.
  repeat (destruct Hcases as [Hc|Hcases]; [subst d; split; discriminate|]).
  subst d; split; discriminate.
Qed.

Section DigitLoop.
Context {R : Type} (loop : string → Z → R) (bound : Z).
Hypothesis loop_digit : ∀ d rest n,
  0 <= d < 10 → 0 <= n → n * 10 + d <= bound →
  loop (String (strconv.digit_char d) rest) n = loop rest (n * 10 + d).

(** A digit loop run over the digits of [u] shifts its accumulator by
    their number and adds [u]. *)
Lemma loop_format_digits fuel : ∀ u acc,
  0 <= u < 10 ^ Z.of_nat fuel →
  ∃ k, 0 <= k ∧ ∀ n, 0 <= n → n * 10 ^ k + u <= bound →
    loop (strconv.format_digits fuel u acc) n = loop acc (n * 10 ^ k + u).
Proof.
  induction fuel as [|fuel IH]; intros u acc Hu.
  - exists 0. split; [lia|]. intros n Hn Hb. simpl in *.
    f_equal. change (10 ^ 0) with 1 in *. lia.
  - simpl strconv.format_digits.
    destruct (Z.ltb_spec u 10) as [Hsmall|Hbig].
    + exists 1. split; [lia|]. intros n Hn Hb.
      change (10 ^ 1) with 10 in *. apply loop_digit; lia.
    + assert (Hdiv : 0 <= u `div` 10 < 10 ^ Z.of_nat fuel).
      { split; [apply Z.div_pos; lia|].
        apply Z.div_lt_upper_bound; [lia|].
        rewrite Nat2Z.inj_succ, Z.pow_succ_r in Hu by lia. lia. }
      destruct (IH (u `div` 10)
                  (String (strconv.digit_char (u `mod` 10)) acc) Hdiv)
        as (k & Hk & Hloop).
      exists (k + 1). split; [lia|]. intros n Hn Hb.
      pose proof (Z.div_mod u 10 ltac:(lia)) as Hdm.
      pose proof (Z.mod_pos_bound u 10 ltac:(lia)) as Hm.
      rewrite Z.pow_add_r in * by lia. change (10 ^ 1) with 10 in *.
      assert (Hp : 0 <= n * 10 ^ k) by (apply Z.mul_nonneg_nonneg; lia).
      rewrite Hloop by lia.
      rewrite loop_digit by lia. f_equal. lia.
Qed.
End DigitLoop.

Lemma format_digits_head fuel : ∀ u acc,
  0 <= u → fuel ≠ 0%nat →
  ∃ d rest, 0 <= d < 10
            ∧ strconv.format_digits fuel u acc = String (strconv.digit_char d) rest.
Proof.
  induction fuel as [|fuel IH]; intros u acc Hu Hfuel; [done|].
  simpl. destruct (Z.ltb_spec u 10) as [Hsmall|Hbig].
  - exists u, acc. split; [lia|done].
  - destruct fuel as [|fuel'].
    + exists (u `mod` 10), acc. split; [|done].
      apply Z.mod_pos_bound. lia.
    + apply IH; [apply Z.div_pos; lia|done].
Qed.

Lemma atoi_fast_loop_digit d rest n :
  0 <= d < 10 → 0 <= n → n * 10 + d <= GoInt.max_int →
  strconv.atoi_fast_loop (String (strconv.digit_char d) rest) n
  = strconv.atoi_fast_loop rest (n * 10 + d).
Proof.
  intros Hd Hn Hb. simpl. rewrite digit_of_digit_char by done.
  assert (Hr : ∀ z, 0 <= z <= GoInt.max_int → GoInt.in_range z).
  { unfold GoInt.in_range, GoInt.min_int, GoInt.max_int. lia. }
  unfold GoInt.mul. rewrite (wrap_in_range (n * 10)) by (apply Hr; lia).
  by rewrite add_exact by (apply Hr; lia).
Qed.

Lemma parseUint_loop_digit d rest n :
  0 <= d < 10 → 0 <= n → n * 10 + d <= strconv.max_uint64 →
  strconv.parseUint_loop (String (strconv.digit_char d) rest) n
  = strconv.parseUint_loop rest (n * 10 + d).
Proof.
  intros Hd Hn Hb. simpl. rewrite digit_of_digit_char by done.
  unfold strconv.max_uint64 in *.
  change ((2 ^ 64 - 1) `div` 10 + 1) with 1844674407370955162.
  destruct (Z.leb_spec 1844674407370955162 n) as [?|_]; [lia|].
  destruct (Z.ltb_spec (2 ^ 64 - 1) (n * 10 + d)) as [?|_]; [lia|done].
Qed.

(** [Atoi] reads back what [Itoa] writes, for every index a slice can
    have. *)
Lemma Atoi_Itoa i :
  0 <= i <= GoInt.max_int → strconv.Atoi (strconv.Itoa i) = (i, None).
Proof.
  intros Hi. unfold GoInt.max_int in Hi.
  unfold strconv.Itoa. destruct (Z.ltb_spec i 0) as [?|_]; [lia|].
  assert (Hfuel : 0 <= i < 10 ^ Z.of_nat 20).
  { change (10 ^ Z.of_nat 20) with 100000000000000000000. lia. }
  destruct (format_digits_head 20 i "" ltac:(lia) ltac:(done))
    as (d & rest & Hd & Hhead).
  destruct (digit_char_not_sign d Hd) as [Hminus Hplus].
  destruct (loop_format_digits strconv.atoi_fast_loop GoInt.max_int
              atoi_fast_loop_digit 20 i "" Hfuel) as (k1 & Hk1 & Hfast).
  destruct (loop_format_digits strconv.parseUint_loop strconv.max_uint64
              parseUint_loop_digit 20 i "" Hfuel) as (k2 & Hk2 & Hslow).
  specialize (Hfast 0 ltac:(lia) ltac:(unfold GoInt.max_int; lia)).
  specialize (Hslow 0 ltac:(lia) ltac:(unfold strconv.max_uint64; lia)).
  rewrite Z.mul_0_l, Z.add_0_l in Hfast, Hslow.
  remember (strconv.format_digits 20 i "") as s eqn:Hs. clear Hs.
  unfold strconv.Atoi.
  destruct (_ && _).
  - rewrite Hhead. rewrite <- Hhead.
    rewrite (bool_decide_eq_false_2 _ Hminus), (bool_decide_eq_false_2 _ Hplus).
    simpl. by rewrite Hfast.
  - unfold strconv.ParseInt. rewrite Hhead. rewrite <- Hhead.
    rewrite (bool_decide_eq_false_2 _ Hminus), (bool_decide_eq_false_2 _ Hplus).
    simpl. unfold strconv.ParseUint. rewrite Hhead at 1. rewrite Hslow.
    cbn [strconv.parseUint_loop].
    destruct (Z.leb_spec (2 ^ 63) i) as [?|_]; [lia|done].
Qed.

Lemma format_digits_nonempty n u acc :
  n ≠ 0%nat ∨ acc ≠ "" → strconv.format_digits n u acc ≠ "".
Proof.
  revert u acc. induction n as [|n IH]; intros u acc [Hn|Hacc]; simpl; try done.
  - destruct (u <? 10); [discriminate|]. apply IH. by right.
  - destruct (u <? 10); [discriminate|]. apply IH. by right.
Qed.

Lemma Itoa_nonempty j : strconv.Itoa j ≠ "".
Proof.
  unfold strconv.Itoa. destruct (j <? 0); [discriminate|].
  apply format_digits_nonempty. by left.
Qed.

(** ** The key handler *)

(** Evaluates the monadic steps of the handler on a given state, up to
    the next value the context has to supply. *)
Ltac run_M :=
  cbv beta iota delta
    [mbind M_bind mret M_ret getView withView putView withTab withBar getPage
     stop lift f_tab f_bar view set_view cview.GetHighlights cview.highlights];
  simpl.

Lemma index_Ok {A} (l : list A) i x :
  index l i = Ok x ↔ 0 <= i ∧ l !! Z.to_nat i = Some x.
Proof.
  unfold index.
  destruct (Z.ltb_spec i 0) as [Hneg|Hnn]; simpl.
  { split; [discriminate|lia]. }
  destruct (Z.leb_spec (GoInt.len l) i) as [Hge|Hlt].
  { split; [discriminate|]. intros [_ Hx].
    apply lookup_lt_Some in Hx. unfold GoInt.len in Hge. lia. }
  destruct (l !! Z.to_nat i) as [y|] eqn:Hy.
  - split; [intros [= ->]; done | by intros [_ [= ->]]].
  - split; [discriminate | by intros [_ ?]].
Qed.

Lemma index_in_range {A} (l : list A) i :
  0 <= i < GoInt.len l → ∃ x, index l i = Ok x.
Proof.
  intros Hi. unfold GoInt.len in Hi.
  destruct (lookup_lt_is_Some_2 l (Z.to_nat i)) as [x Hx]; [lia|].
  exists x. apply index_Ok. split; [lia|done].
Qed.

Lemma index_nil {A} i : index (@nil A) i = Panic IndexOutOfRange.
Proof.
  unfold index. destruct (i <? 0); [done|].
  simpl. by destruct (GoInt.len [] <=? i).
Qed.

Lemma index_insert {A} (l : list A) k x y :
  index l k = Ok x → index (<[Z.to_nat k := y]> l) k = Ok y.
Proof.
  intros [Hk Hx]%index_Ok. apply index_Ok. split; [done|].
  apply list_lookup_insert_eq. by apply lookup_lt_Some in Hx.
Qed.

(** The handler, once [tabs[tab]] has been found. *)
Lemma doneFunc_on_tab key w t :
  index (tabs w) (curTab w) = Ok t →
  doneFunc key w =
    match doneFunc_body (curTab w) (deref (pages w) t) key (mkFocus t (bottomBar w)) with
    | Next _ s | Halt Returns s => (Returns, commit w (curTab w) (deferred s))
    | Halt (Panics e) s => (Panics e, commit w (curTab w) (deferred s))
    | Halt (Follows i b r) s => (Follows i b r, commit w (curTab w) s)
    end.
Proof. intros Ht. unfold doneFunc. by rewrite Ht. Qed.

(** Tab and Backtab with a highlight: the body up to the deferred call,
    in terms of Go's own arithmetic. *)
Lemma doneFunc_body_cycle tab p key t v id rest j l bar :
  view t = Some v → cview.GetHighlights v = id :: rest →
  match key with
  | KeyTab =>
      GoInt.rem (GoInt.add (strconv.Atoi id).1 1) (GoInt.len (Links p)) = Some j
  | KeyBacktab =>
      GoInt.rem (GoInt.add (GoInt.sub (strconv.Atoi id).1 1) (GoInt.len (Links p)))
        (GoInt.len (Links p)) = Some j
  | _ => False
  end →
  index (Links p) j = Ok l →
  doneFunc_body tab (Some p) key (mkFocus t bar)
  = Next () (mkFocus (selecting j l id v t) (link_bar l bar)).
Proof.
  intros Hv Hh Hj Hl.
  destruct t as [pg vw md hs sel sid bl bt], v as [lo co hl sth].
  simpl in Hv, Hh. subst vw hl.
  pose proof (bool_decide_eq_false_2 _ (Itoa_nonempty j)) as Hne.
  unfold doneFunc_body.
  destruct key; try done; simpl bool_decide; run_M;
    rewrite Hj; simpl; unfold cview.Highlight; rewrite Hne, Hl; reflexivity.
Qed.

(** Enter with a highlight and a link behind it. *)
Lemma doneFunc_body_follow tab p t v id rest l bar :
  view t = Some v → cview.GetHighlights v = id :: rest →
  index (Links p) (strconv.Atoi id).1 = Ok l →
  doneFunc_body tab (Some p) KeyEnter (mkFocus t bar)
  = Halt (Follows tab (URL p) l)
      (mkFocus (set_mode modeOff t) (cview.SetLabel "" bar)).
Proof.
  intros Hv Hh Hl.
  destruct t as [pg vw md hs sel sid bl bt], v as [lo co hl sth].
  simpl in Hv, Hh. subst vw hl.
  assert (Hlinks : (0 <? GoInt.len (Links p)) = true).
  { apply index_Ok in Hl as [_ Hl]. apply lookup_lt_Some in Hl.
    apply Z.ltb_lt. unfold GoInt.len. lia. }
  unfold doneFunc_body. simpl bool_decide. run_M.
  rewrite Hlinks. simpl. rewrite Hl. reflexivity.
Qed.

(** Enter on a page without links: the highlight and the label are set,
    then [Links[0]] is out of range. *)
Lemma doneFunc_body_no_links tab p t v bar :
  view t = Some v → Links p = [] →
  doneFunc_body tab (Some p) KeyEnter (mkFocus t bar)
  = Halt (Panics IndexOutOfRange)
      (mkFocus (set_view (cview.ScrollToHighlight (cview.Highlight "0" v)) t)
         (cview.SetLabel link_label bar)).
Proof.
  intros Hv Hlinks.
  destruct t as [pg vw md hs sel sid bl bt], v as [lo co hl sth].
  simpl in Hv. subst vw.
  unfold doneFunc_body. simpl bool_decide. run_M.
  rewrite Hlinks. replace (0 <? GoInt.len []) with false by reflexivity.
  rewrite andb_false_r. rewrite index_nil. reflexivity.
Qed.

(** Go's remainder agrees with [mod] on the indices the handler meets. *)
Lemma rem_next_index key i n :
  key = KeyTab ∨ key = KeyBacktab →
  0 <= i < n → 2 * n <= GoInt.max_int →
  match key with
  | KeyTab => GoInt.rem (GoInt.add i 1) n
  | _ => GoInt.rem (GoInt.add (GoInt.sub i 1) n) n
  end = Some (next_index key i n)
  ∧ 0 <= next_index key i n < n.
Proof.
  intros Hkey Hi Hn.
  assert (Hr : ∀ z, -1 <= z <= 2 * n → GoInt.in_range z).
  { unfold GoInt.in_range, GoInt.min_int, GoInt.max_int in *. lia. }
  assert (Hmod : ∀ x, 0 <= x <= 2 * n →
            GoInt.rem x n = Some (x `mod` n) ∧ 0 <= x `mod` n < n).
  { intros x Hx. pose proof (Z.mod_pos_bound x n ltac:(lia)) as Hb.
    unfold GoInt.rem. destruct (Z.eqb_spec n 0) as [?|_]; [lia|].
    rewrite Z.rem_mod_nonneg by lia.
    rewrite wrap_in_range by (apply Hr; lia). done. }
  destruct Hkey as [-> | ->]; unfold next_index.
  - rewrite add_exact by (apply Hr; lia). apply Hmod. lia.
  - rewrite sub_exact by (apply Hr; lia).
    rewrite add_exact by (apply Hr; lia). apply Hmod. lia.
Qed.

Lemma next_index_moves key i n :
  key = KeyTab ∨ key = KeyBacktab →
  0 <= i < n → 1 < n → next_index key i n ≠ i.
Proof.
  intros Hkey Hi Hn Heq.
  destruct Hkey as [-> | ->]; unfold next_index in Heq.
  - destruct (Z.eq_dec (i + 1) n) as [Hlast|Hnot].
    + rewrite Hlast, Z.mod_same in Heq by lia. lia.
    + rewrite Z.mod_small in Heq by lia. lia.
  - destruct (Z.eq_dec i 0) as [Hfirst|Hnot].
    + subst i. rewrite Z.mod_small in Heq by lia. lia.
    + replace (i - 1 + n) with (i - 1 + 1 * n) in Heq by lia.
      rewrite Z.mod_add, Z.mod_small in Heq by lia. lia.
Qed.

(** Tab and Backtab on a selection, whole handler: the result in full. *)
Lemma doneFunc_cycle w t v p id rest key :
  index (tabs w) (curTab w) = Ok t → view t = Some v →
  deref (pages w) t = Some p → cview.GetHighlights v = id :: rest →
  key = KeyTab ∨ key = KeyBacktab →
  0 <= (strconv.Atoi id).1 < GoInt.len (Links p) →
  2 * GoInt.len (Links p) <= GoInt.max_int →
  let j := next_index key (strconv.Atoi id).1 (GoInt.len (Links p)) in
  ∃ l, index (Links p) j = Ok l
       ∧ doneFunc key w
         = (Returns,
            commit w (curTab w)
              (deferred (mkFocus (selecting j l id v t) (link_bar l (bottomBar w))))).
Proof.
  intros Ht Hv Hp Hh Hkey Hi Hn j.
  destruct (rem_next_index key _ _ Hkey Hi Hn) as [Hrem Hj]. fold j in Hrem, Hj.
  destruct (index_in_range (Links p) j Hj) as [l Hl].
  exists l. split; [done|].
  rewrite (doneFunc_on_tab key w t Ht), Hp.
  rewrite (doneFunc_body_cycle _ p key t v id rest j l); try done.
  by destruct Hkey as [-> | ->].
Qed.

(** C4. With [n > 0] links and the highlighted id reading as an index [i]
    of [[0, n)], a Tab key moves to [(i + 1) mod n] and a Backtab key to
    [(i - 1 + n) mod n].  The handler returns normally; the view then
    highlights exactly the region named by the new index (an id that
    reads back as that index) and is asked to scroll to it, and the
    bottom bar shows the link label and the target of the new link. *)
Theorem tab_keys_cycle_selection w t v p id rest key :
  index (tabs w) (curTab w) = Ok t → view t = Some v →
  deref (pages w) t = Some p → cview.GetHighlights v = id :: rest →
  key = KeyTab ∨ key = KeyBacktab →
  0 <= (strconv.Atoi id).1 < GoInt.len (Links p) →
  2 * GoInt.len (Links p) <= GoInt.max_int →
  let j := next_index key (strconv.Atoi id).1 (GoInt.len (Links p)) in
  ∃ l t' v',
    0 <= j < GoInt.len (Links p) ∧ Links p !! Z.to_nat j = Some l
    ∧ (doneFunc key w).1 = Returns
    ∧ index (tabs (doneFunc key w).2) (curTab w) = Ok t'
    ∧ view t' = Some v'
    ∧ cview.GetHighlights v' = [strconv.Itoa j]
    ∧ strconv.Atoi (strconv.Itoa j) = (j, None)
    ∧ cview.scrollToHighlights v' = true
    ∧ cview.GetScrollOffset v' = cview.GetScrollOffset v
    ∧ bottomBar (doneFunc key w).2 = cview.mkInputField link_label l
    ∧ barLabel t' = link_label ∧ barText t' = l.
Proof.
  intros Ht Hv Hp Hh Hkey Hi Hn j.
  destruct (doneFunc_cycle w t v p id rest key Ht Hv Hp Hh Hkey Hi Hn)
    as (l & Hl & Hrun). fold j in Hl, Hrun.
  destruct (rem_next_index key _ _ Hkey Hi Hn) as [_ Hj]. fold j in Hj.
  apply index_Ok in Hl as [_ Hl].
  eexists l, _, _. rewrite Hrun. simpl.
  split; [done|]. split; [done|]. split; [done|].
  split; [by apply (index_insert _ _ t)|].
  split; [done|]. split; [done|].
  split; [apply Atoi_Itoa; lia|].
  repeat split.
Qed.

Lemma tab_keys_cycle_selection_witness :
  let w := example_world ["/a"; "/b"; "/c"] "2" in
  ∃ l t' v',
    0 <= 0 < 3 ∧ ["/a"; "/b"; "/c"] !! Z.to_nat 0 = Some l
    ∧ (doneFunc KeyTab w).1 = Returns
    ∧ index (tabs (doneFunc KeyTab w).2) 0 = Ok t'
    ∧ view t' = Some v'
    ∧ cview.GetHighlights v' = [strconv.Itoa 0]
    ∧ strconv.Atoi (strconv.Itoa 0) = (0, None)
    ∧ cview.scrollToHighlights v' = true
    ∧ cview.GetScrollOffset v' = (0, 0)
    ∧ bottomBar (doneFunc KeyTab w).2 = cview.mkInputField link_label l
    ∧ barLabel t' = link_label ∧ barText t' = l.
Proof.
  intros w.
  apply (tab_keys_cycle_selection w (example_tab "2") (example_view "2")
           (example_page ["/a"; "/b"; "/c"]) "2" [] KeyTab);
    [reflexivity | reflexivity | reflexivity | reflexivity
    | left; reflexivity | vm_compute; split; [discriminate | reflexivity]
    | vm_compute; discriminate].
Defined.

(** C10. After a Tab or Backtab that moves the highlight from link [i] to
    link [j], the tab's [selected] is the target of link [j], while its
    [selectedID] is the id that was highlighted before the key, the one
    that reads as [i].  With more than one link [j] differs from [i], so
    the two fields name different links. *)
Theorem selectedID_keeps_previous_id w t v p id rest key :
  index (tabs w) (curTab w) = Ok t → view t = Some v →
  deref (pages w) t = Some p → cview.GetHighlights v = id :: rest →
  key = KeyTab ∨ key = KeyBacktab →
  0 <= (strconv.Atoi id).1 < GoInt.len (Links p) →
  2 * GoInt.len (Links p) <= GoInt.max_int →
  let i := (strconv.Atoi id).1 in
  let j := next_index key i (GoInt.len (Links p)) in
  ∃ l t',
    (doneFunc key w).1 = Returns
    ∧ index (tabs (doneFunc key w).2) (curTab w) = Ok t'
    ∧ cview.GetHighlights <$> view t' = Some [strconv.Itoa j]
    ∧ Links p !! Z.to_nat j = Some l
    ∧ selected t' = l
    ∧ selectedID t' = id
    ∧ (1 < GoInt.len (Links p) → (strconv.Atoi (selectedID t')).1 ≠ j).
Proof.
  intros Ht Hv Hp Hh Hkey Hi Hn i j.
  destruct (doneFunc_cycle w t v p id rest key Ht Hv Hp Hh Hkey Hi Hn)
    as (l & Hl & Hrun). fold i j in Hl, Hrun.
  apply index_Ok in Hl as [_ Hl].
  eexists l, _. rewrite Hrun. simpl.
  split; [done|]. split; [by apply (index_insert _ _ t)|].
  simpl. repeat (split; [done|]).
  intros Hmany Heq. by apply (next_index_moves key i _ Hkey Hi Hmany).
Qed.

Lemma selectedID_keeps_previous_id_witness :
  let w := example_world ["/a"; "/b"; "/c"] "0" in
  ∃ l t',
    (doneFunc KeyBacktab w).1 = Returns
    ∧ index (tabs (doneFunc KeyBacktab w).2) 0 = Ok t'
    ∧ cview.GetHighlights <$> view t' = Some [strconv.Itoa 2]
    ∧ ["/a"; "/b"; "/c"] !! Z.to_nat 2 = Some l
    ∧ selected t' = l
    ∧ selectedID t' = "0"
    ∧ (1 < 3 → (strconv.Atoi (selectedID t')).1 ≠ 2).
Proof.
  intros w.
  apply (selectedID_keeps_previous_id w (example_tab "0") (example_view "0")
           (example_page ["/a"; "/b"; "/c"]) "0" [] KeyBacktab);
    [reflexivity | reflexivity | reflexivity | reflexivity
    | right; reflexivity | vm_compute; split; [discriminate | reflexivity]
    | vm_compute; discriminate].
Defined.

(** C5. Enter with a highlight that reads as the index [i] of a link:
    the handler ends in one call [followLink(tab, page.Url, Links[i])],
    and in the world that call is entered in, the tab's mode is already
    off (and the bar's label cleared).  Completed by any [followLink], the
    handler calls it on exactly those arguments and that world, once. *)
Theorem enter_follows_selected_link w t v p id rest l :
  index (tabs w) (curTab w) = Ok t → view t = Some v →
  deref (pages w) t = Some p → cview.GetHighlights v = id :: rest →
  0 <= (strconv.Atoi id).1 →
  Links p !! Z.to_nat (strconv.Atoi id).1 = Some l →
  doneFunc KeyEnter w = (Follows (curTab w) (URL p) l, dispatch_world w t)
  ∧ (mode <$> tabs (dispatch_world w t) !! Z.to_nat (curTab w)) = Some modeOff
  ∧ ∀ followLink,
      doneFunc_with followLink KeyEnter w
      = (Returns,
         run_deferred (curTab w)
           (followLink (curTab w) (URL p) l (dispatch_world w t))).
Proof.
  intros Ht Hv Hp Hh Hi Hl.
  assert (Hrun : doneFunc KeyEnter w
                 = (Follows (curTab w) (URL p) l, dispatch_world w t)).
  { rewrite (doneFunc_on_tab KeyEnter w t Ht), Hp.
    rewrite (doneFunc_body_follow _ p t v id rest l); try done.
    by apply index_Ok. }
  split; [done|]. split.
  - unfold dispatch_world, commit. simpl.
    apply index_Ok in Ht as [_ Ht].
    rewrite list_lookup_insert_eq by by apply lookup_lt_Some in Ht. done.
  - intros followLink. unfold doneFunc_with. by rewrite Hrun.
Qed.

Lemma enter_follows_selected_link_witness :
  let w := example_world ["/a"; "/b"; "/c"] "1" in
  doneFunc KeyEnter w
  = (Follows 0 "gemini://example.org/" "/b", dispatch_world w (example_tab "1"))
  ∧ (mode <$> tabs (dispatch_world w (example_tab "1")) !! Z.to_nat 0) = Some modeOff
  ∧ ∀ followLink,
      doneFunc_with followLink KeyEnter w
      = (Returns,
         run_deferred 0
           (followLink 0 "gemini://example.org/" "/b"
              (dispatch_world w (example_tab "1")))).
Proof.
  intros w.
  apply (enter_follows_selected_link w (example_tab "1") (example_view "1")
           (example_page ["/a"; "/b"; "/c"]) "1" [] "/b");
    [reflexivity | reflexivity | reflexivity | reflexivity
    | vm_compute; discriminate | reflexivity].
Defined.

(** ** Enter without links *)

(** Whatever is highlighted, Enter on a page with no links ends in an
    index panic, after the view has been told to highlight region 0 and
    the bar has been given the link label. *)
Lemma enter_without_links w t v p :
  index (tabs w) (curTab w) = Ok t → view t = Some v →
  deref (pages w) t = Some p → Links p = [] →
  doneFunc KeyEnter w
  = (Panics IndexOutOfRange,
     commit w (curTab w)
       (deferred (mkFocus
          (set_view (cview.ScrollToHighlight (cview.Highlight "0" v)) t)
          (cview.SetLabel link_label (bottomBar w))))).
Proof.
  intros Ht Hv Hp Hlinks.
  rewrite (doneFunc_on_tab KeyEnter w t Ht), Hp.
  by rewrite (doneFunc_body_no_links _ p t v).
Qed.

(** C2, on the tab [makeNewTab] creates (mode off, nothing highlighted,
    a page without links).  Enter does not leave the tab as it was: the
    handler panics on [Links[0]], and by then region 0 is highlighted and
    the bar's label, saved into the tab by the deferred call, is the link
    label. *)
Theorem enter_on_new_tab_panics :
  ∃ t v p,
    index (tabs new_tab_world) (curTab new_tab_world) = Ok t
    ∧ mode t = modeOff ∧ view t = Some v ∧ cview.GetHighlights v = []
    ∧ deref (pages new_tab_world) t = Some p ∧ Links p = []
    ∧ (doneFunc KeyEnter new_tab_world).1 = Panics IndexOutOfRange
    ∧ (cview.GetHighlights <$>
         (tabs (doneFunc KeyEnter new_tab_world).2 !! 0%nat ≫= view))
      = Some ["0"]
    ∧ (barLabel <$> tabs (doneFunc KeyEnter new_tab_world).2 !! 0%nat)
      = Some link_label.
Proof.
  eexists _, _, _.
  split; [reflexivity|]. split; [reflexivity|]. split; [reflexivity|].
  split; [reflexivity|]. split; [vm_compute; reflexivity|].
  split; [reflexivity|]. split; [vm_compute; reflexivity|].
  split; vm_compute; reflexivity.
Qed.

(** ** Highlight ids that are not indices *)

Lemma Atoi_syntax_error_value id :
  (strconv.Atoi id).2 = Some strconv.ErrSyntax → (strconv.Atoi id).1 = 0.
Proof.
  unfold strconv.Atoi.
  destruct ((0 <? GoInt.slen id) && (GoInt.slen id <? 19)).
  - destruct id as [|c rest]; [done|].
    destruct (_ && _); [done|].
    destruct (strconv.atoi_fast_loop _ 0) as [n [e|]]; [done|discriminate].
  - unfold strconv.ParseInt. destruct id as [|c rest]; [done|].
    destruct (strconv.ParseUint _) as [un [[]|]]; [done| |];
      repeat (destruct (_ && _); [discriminate|]); discriminate.
Qed.

(** C6, for ids that are not numerals.  If [Atoi] rejects the highlighted
    id with a syntax error, its value is 0, and Enter on a page with at
    least one link follows [Links[0]]: no panic, no error reported. *)
Theorem enter_with_non_numeric_id_follows_first_link w t v p id rest l0 ls :
  index (tabs w) (curTab w) = Ok t → view t = Some v →
  deref (pages w) t = Some p → cview.GetHighlights v = id :: rest →
  (strconv.Atoi id).2 = Some strconv.ErrSyntax →
  Links p = l0 :: ls →
  (strconv.Atoi id).1 = 0
  ∧ doneFunc KeyEnter w = (Follows (curTab w) (URL p) l0, dispatch_world w t).
Proof.
  intros Ht Hv Hp Hh Herr Hlinks.
  pose proof (Atoi_syntax_error_value id Herr) as Hzero.
  split; [done|].
  rewrite (doneFunc_on_tab KeyEnter w t Ht), Hp.
  rewrite (doneFunc_body_follow _ p t v id rest l0); try done.
  rewrite Hzero, Hlinks. reflexivity.
Qed.

Lemma enter_with_non_numeric_id_follows_first_link_witness :
  let w := example_world ["/a"; "/b"; "/c"] "top" in
  (strconv.Atoi "top").1 = 0
  ∧ doneFunc KeyEnter w
    = (Follows 0 "gemini://example.org/" "/a", dispatch_world w (example_tab "top")).
Proof.
  intros w.
  apply (enter_with_non_numeric_id_follows_first_link w (example_tab "top")
           (example_view "top") (example_page ["/a"; "/b"; "/c"]) "top" []
           "/a" ["/b"; "/c"]); reflexivity.
Defined.

(** C6 as stated fails for a numeral that does not fit an [int]: [Atoi]
    rejects "9223372036854775808" with a range error and the value
    [max_int], and [Links[max_int]] panics. *)
Lemma enter_with_overflowing_id_panics :
  strconv.Atoi "9223372036854775808" = (GoInt.max_int, Some strconv.ErrRange)
  ∧ (doneFunc KeyEnter (example_world ["/a"] "9223372036854775808")).1
    = Panics IndexOutOfRange.
Proof. split; vm_compute; reflexivity. Qed.

(** * Further properties of the tab methods *)

(** ** Arithmetic modulo 2^64 *)

Lemma wrap_add_sub row s :
  GoInt.in_range row → GoInt.sub (GoInt.add row s) s = row.
Proof.
  intros Hr. unfold GoInt.sub, GoInt.add, GoInt.wrap.
  unfold GoInt.in_range, GoInt.min_int, GoInt.max_int in Hr.
  replace ((row + s + 2 ^ 63) `mod` 2 ^ 64 - 2 ^ 63 - s + 2 ^ 63)
    with ((row + s + 2 ^ 63) `mod` 2 ^ 64 - s) by lia.
  rewrite Zminus_mod_idemp_l.
  replace (row + s + 2 ^ 63 - s) with (row + 2 ^ 63) by lia.
  rewrite Z.mod_small; lia.
Qed.

Lemma wrap_sub_add row s :
  GoInt.in_range row → GoInt.add (GoInt.sub row s) s = row.
Proof.
  intros Hr. unfold GoInt.sub, GoInt.add, GoInt.wrap.
  unfold GoInt.in_range, GoInt.min_int, GoInt.max_int in Hr.
  replace ((row - s + 2 ^ 63) `mod` 2 ^ 64 - 2 ^ 63 + s + 2 ^ 63)
    with ((row - s + 2 ^ 63) `mod` 2 ^ 64 + s) by lia.
  rewrite Zplus_mod_idemp_l.
  replace (row - s + 2 ^ 63 + s) with (row + 2 ^ 63) by lia.
  rewrite Z.mod_small; lia.
Qed.

(** ** Paging *)

(** X1. [pageDown] and [pageUp] undo each other: paging down and then up
    (or up and then down) gives back the very same tab, for every
    terminal height and also when the intermediate row overflows. *)
Theorem pageDown_pageUp_inverse termH t v :
  view t = Some v → GoInt.in_range (cview.lineOffset v) →
  (∃ t1, pageDown termH t = Ok t1 ∧ pageUp termH t1 = Ok t)
  ∧ (∃ t1, pageUp termH t = Ok t1 ∧ pageDown termH t1 = Ok t).
Proof.
  intros Hv Hr.
  destruct t as [pg vw md hs sel sid bl bt], v as [lo co hl sth].
  simpl in *. subst vw.
  split; eexists; (split; [reflexivity|]).
  - unfold pageUp, pageDown. simpl. unfold set_view, cview.ScrollTo. simpl.
    by rewrite wrap_add_sub.
  - unfold pageUp, pageDown. simpl. unfold set_view, cview.ScrollTo. simpl.
    by rewrite wrap_sub_add.
Qed.

Lemma pageDown_pageUp_inverse_witness :
  let v := cview.mkTextView 40 2 ["1"] false in
  let t := mkTab None (Some v) modeOff (mkHistory [] 0) "" "" "" "" in
  (∃ t1, pageDown 24 t = Ok t1 ∧ pageUp 24 t1 = Ok t)
  ∧ (∃ t1, pageUp 24 t = Ok t1 ∧ pageDown 24 t1 = Ok t).
Proof.
  intros v t.
  apply (pageDown_pageUp_inverse 24 t v);
    [reflexivity | vm_compute; split; discriminate].
Defined.

(** X2. In a terminal fewer than four rows high the paging step is zero:
    neither [pageUp] nor [pageDown] moves the viewport. *)
Theorem paging_stands_still_below_four_rows termH t v :
  view t = Some v → 0 <= termH < 4 →
  GoInt.in_range (cview.lineOffset v) →
  pageDown termH t = Ok t ∧ pageUp termH t = Ok t.
Proof.
  intros Hv HtermH Hr.
  assert (Hstep : three_quarters termH = 0).
  { rewrite three_quarters_exact.
    - rewrite Z.quot_small by lia. lia.
    - unfold GoInt.in_range, GoInt.min_int, GoInt.max_int. lia. }
  destruct t as [pg vw md hs sel sid bl bt], v as [lo co hl sth].
  simpl in *. subst vw.
  unfold pageDown, pageUp. simpl. rewrite Hstep.
  rewrite add_exact, sub_exact by (by rewrite ?Z.add_0_r, ?Z.sub_0_r).
  by rewrite Z.add_0_r, Z.sub_0_r.
Qed.

Lemma paging_stands_still_below_four_rows_witness :
  let v := cview.mkTextView 5 0 [] false in
  let t := mkTab None (Some v) modeOff (mkHistory [] 0) "" "" "" "" in
  pageDown 3 t = Ok t ∧ pageUp 3 t = Ok t.
Proof.
  intros v t.
  apply (paging_stands_still_below_four_rows 3 t v);
    [reflexivity | lia | vm_compute; split; discriminate].
Defined.

(** X3. The paging functions fail exactly on a tab without a view, and
    when they succeed they change the view's row and nothing else: the
    column, the highlights, the page, the mode, the history and the
    selection all stay. *)
Theorem paging_touches_only_the_row termH t :
  (view t = None →
     pageDown termH t = Panic NilDereference
     ∧ pageUp termH t = Panic NilDereference)
  ∧ ∀ t', pageDown termH t = Ok t' ∨ pageUp termH t = Ok t' →
      ∃ v v', view t = Some v ∧ view t' = Some v'
        ∧ cview.columnOffset v' = cview.columnOffset v
        ∧ cview.GetHighlights v' = cview.GetHighlights v
        ∧ page t' = page t ∧ mode t' = mode t ∧ history t' = history t
        ∧ selected t' = selected t ∧ selectedID t' = selectedID t
        ∧ barLabel t' = barLabel t ∧ barText t' = barText t.
Proof.
  split.
  - intros Hv. unfold pageDown, pageUp. by rewrite Hv.
  - intros t' Hrun. unfold pageDown, pageUp in Hrun.
    destruct (view t) as [v|] eqn:Hv; [|by destruct Hrun].
    destruct v as [lo co hl sth]. simpl in Hrun.
    destruct Hrun as [[= <-]|[= <-]]; eexists _, _; simpl; repeat split.
Qed.

(** ** History *)

(** X4. With the cursor on an entry of the list (or just before the
    first), [addToHistory] keeps the entries up to the cursor, drops the
    ones after it, appends the url and leaves the cursor on it, the last
    entry. *)
Theorem addToHistory_truncates_forward_branch u h :
  -1 <= pos h <= GoInt.len (urls h) - 1 → GoInt.len (urls h) < GoInt.max_int →
  ∃ h', addToHistory u h = Ok h'
        ∧ urls h' = (take (Z.to_nat (pos h + 1)) (urls h) ++ [u])%list
        ∧ pos h' = pos h + 1
        ∧ pos h' = GoInt.len (urls h') - 1
        ∧ urls h' !! Z.to_nat (pos h') = Some u
        ∧ ∀ k, (k < Z.to_nat (pos h + 1))%nat → urls h' !! k = urls h !! k.
Proof.
  intros Hpos Hlen.
  destruct (addToHistory_within_list u h Hpos Hlen) as (h' & Hrun & Hurls & Hlast).
  exists h'. split; [done|]. split; [done|].
  assert (Hp : pos h' = pos h + 1).
  { rewrite Hlast, Hurls. unfold GoInt.len in *.
    rewrite length_app, length_take. simpl. lia. }
  split; [done|]. split; [done|]. split.
  - rewrite Hurls, Hp.
    assert (Hk : Z.to_nat (pos h + 1)
                 = length (take (Z.to_nat (pos h + 1)) (urls h))).
    { unfold GoInt.len in *. rewrite length_take. lia. }
    rewrite Hk at 1. by rewrite list_lookup_middle.
  - intros k Hk. rewrite Hurls.
    rewrite lookup_app_l by (unfold GoInt.len in *; rewrite length_take; lia).
    by rewrite lookup_take_lt.
Qed.

Lemma addToHistory_truncates_forward_branch_witness :
  let h := mkHistory ["A"; "B"; "C"] 0 in
  ∃ h', addToHistory "D" h = Ok h'
        ∧ urls h' = (take (Z.to_nat (0 + 1)) ["A"; "B"; "C"] ++ ["D"])%list
        ∧ pos h' = 0 + 1
        ∧ pos h' = GoInt.len (urls h') - 1
        ∧ urls h' !! Z.to_nat (pos h') = Some "D"
        ∧ ∀ k, (k < Z.to_nat (0 + 1))%nat → urls h' !! k = ["A"; "B"; "C"] !! k.
Proof.
  intros h.
  apply (addToHistory_truncates_forward_branch "D" h);
    [vm_compute; split; discriminate | reflexivity].
Defined.

(** X5. [addToHistory] panics exactly when the cursor is below -1: the
    reslice [urls[:pos+1]] then has a negative bound.  From -1 upwards it
    always returns. *)
Theorem addToHistory_panics_iff_cursor_below_minus_one u h :
  GoInt.in_range (pos h) → GoInt.len (urls h) <= GoInt.max_int →
  (addToHistory u h = Panic SliceBoundsOutOfRange ↔ pos h < -1)
  ∧ (-1 <= pos h → ∃ h', addToHistory u h = Ok h').
Proof.
  intros Hr Hlen. pose proof (len_nonneg (urls h)) as Hn.
  unfold GoInt.in_range, GoInt.min_int, GoInt.max_int in *.
  assert (Hin : ∀ z, - 2 ^ 63 <= z <= 2 ^ 63 - 1 → GoInt.in_range z).
  { unfold GoInt.in_range, GoInt.min_int, GoInt.max_int. lia. }
  unfold addToHistory.
  rewrite sub_exact by (apply Hin; lia).
  destruct (Z.ltb_spec (pos h) (GoInt.len (urls h) - 1)) as [Hlt|Hge].
  - rewrite add_exact by (apply Hin; lia).
    destruct (Z.ltb_spec (pos h + 1) 0) as [Hneg|Hnn].
    + split; [split; [lia|done]|lia].
    + split; [split; [discriminate|lia]|eauto].
  - split; [split; [discriminate|lia]|eauto].
Qed.

Lemma addToHistory_panics_iff_cursor_below_minus_one_witness :
  let h := mkHistory ["A"] (-2) in
  (addToHistory "B" h = Panic SliceBoundsOutOfRange ↔ -2 < -1)
  ∧ (-1 <= -2 → ∃ h', addToHistory "B" h = Ok h').
Proof.
  intros h.
  apply (addToHistory_panics_iff_cursor_below_minus_one "B" h);
    vm_compute; [split|]; discriminate.
Defined.

Lemma addToHistory_at_or_past_end u h :
  GoInt.len (urls h) - 1 <= pos h < GoInt.max_int →
  addToHistory u h = Ok (mkHistory (urls h ++ [u]) (pos h + 1)).
Proof.
  intros Hpos. pose proof (len_nonneg (urls h)) as Hn.
  unfold GoInt.max_int in *.
  assert (Hin : ∀ z, -1 <= z <= 2 ^ 63 - 1 → GoInt.in_range z).
  { unfold GoInt.in_range, GoInt.min_int, GoInt.max_int. lia. }
  unfold addToHistory.
  rewrite sub_exact by (apply Hin; lia).
  destruct (Z.ltb_spec (pos h) (GoInt.len (urls h) - 1)) as [?|_]; [lia|].
  by rewrite add_exact by (apply Hin; lia).
Qed.

Lemma pushAll_past_end us : ∀ h,
  GoInt.len (urls h) - 1 <= pos h → pos h + GoInt.len us <= GoInt.max_int →
  pushAll us h = Ok (mkHistory (urls h ++ us) (pos h + GoInt.len us)).
Proof.
  induction us as [|u us IH]; intros h Hpos Hmax; simpl.
  - rewrite app_nil_r. unfold GoInt.len. simpl. rewrite Z.add_0_r.
    by destruct h.
  - unfold GoInt.len in *. simpl length in *.
    rewrite addToHistory_at_or_past_end by (unfold GoInt.len; lia).
    rewrite IH; simpl.
    + rewrite <- app_assoc. simpl. f_equal. f_equal. lia.
    + rewrite length_app. simpl. lia.
    + lia.
Qed.

(** X6. A cursor at or past the end of the list stays where it is
    relative to the end: every push appends (nothing is dropped) and adds
    one to both the cursor and the length.  In particular the history of
    a new tab, once the urls [us] have been pushed, holds exactly [us] and
    its cursor is [len us], never the index of an entry. *)
Theorem pushes_keep_cursor_offset us h (st : store) :
  GoInt.len (urls h) - 1 <= pos h → pos h + GoInt.len us <= GoInt.max_int →
  (∃ h', pushAll us h = Ok h'
         ∧ urls h' = (urls h ++ us)%list
         ∧ pos h' - GoInt.len (urls h') = pos h - GoInt.len (urls h))
  ∧ (GoInt.len us <= GoInt.max_int →
     pushAll us (history (makeNewTab st).1) = Ok (mkHistory us (GoInt.len us))).
Proof.
  intros Hpos Hmax. split.
  - rewrite pushAll_past_end by done. eexists. split; [done|].
    simpl. split; [done|]. unfold GoInt.len. rewrite length_app. lia.
  - intros Hus. simpl. rewrite pushAll_past_end; simpl; [done| |lia].
    unfold GoInt.len. simpl. lia.
Qed.

Lemma pushes_keep_cursor_offset_witness :
  let h := mkHistory ["A"] 0 in
  (∃ h', pushAll ["B"; "C"] h = Ok h'
         ∧ urls h' = (["A"] ++ ["B"; "C"])%list
         ∧ pos h' - GoInt.len (urls h') = 0 - GoInt.len ["A"])
  ∧ (GoInt.len ["B"; "C"] <= GoInt.max_int →
     pushAll ["B"; "C"] (history (makeNewTab ∅).1)
     = Ok (mkHistory ["B"; "C"] (GoInt.len ["B"; "C"]))).
Proof.
  intros h.
  apply (pushes_keep_cursor_offset ["B"; "C"] h ∅); vm_compute; discriminate.
Defined.

(** ** The bottom bar *)

(** X7. Saving the bar into a tab and applying it again restores the
    bar's label and text whatever the bar showed in between; and applying
    a tab's saved bar and saving it again leaves the tab as it was. *)
Theorem bottomBar_save_apply_round_trip (t : tab) (bar bar' : cview.InputField) :
  applyBottomBar (saveBottomBar bar t) bar' = bar
  ∧ saveBottomBar (applyBottomBar t bar) t = t
  ∧ bar_saved (saveBottomBar bar t) bar.
Proof. destruct t, bar, bar'. repeat split. Qed.

(** ** Scroll bookkeeping and the page store *)

Lemma Size_ignores_scroll p row col :
  Size (mkPage (URL p) (Mediatype p) (RawMediatype p) (Raw p) (Content p)
          (MaxPreCols p) (Links p) row col (TermWidth p) (Selected p)
          (SelectedID p) (Mode p) (Favicon p) (MadeAt p)) = Size p.
Proof. reflexivity. Qed.

(** X8. [saveScroll] writes the row and column of the tab's own page and
    nothing else: each of the other thirteen fields of that page, every
    other page of the store, the page's [Size] and the tab's [hasContent]
    are as before. *)
Theorem saveScroll_touches_only_row_and_column (st st1 : store) t :
  saveScroll st t = Ok st1 →
  ∃ a p p1,
    page t = Some a ∧ st !! a = Some p ∧ st1 !! a = Some p1
    ∧ Some (Row p1, Column p1) = scrollOffset t
    ∧ URL p1 = URL p ∧ Mediatype p1 = Mediatype p
    ∧ RawMediatype p1 = RawMediatype p ∧ Raw p1 = Raw p
    ∧ Content p1 = Content p ∧ MaxPreCols p1 = MaxPreCols p
    ∧ Links p1 = Links p ∧ TermWidth p1 = TermWidth p
    ∧ Selected p1 = Selected p ∧ SelectedID p1 = SelectedID p
    ∧ Mode p1 = Mode p ∧ Favicon p1 = Favicon p ∧ MadeAt p1 = MadeAt p
    ∧ Size p1 = Size p
    ∧ (∀ b, b ≠ a → st1 !! b = st !! b)
    ∧ hasContent st1 t = hasContent st t.
Proof.
  unfold saveScroll. intros Hrun.
  destruct (view t) as [v|] eqn:Hv; [|done].
  destruct v as [lo co hl sth]. simpl in Hrun.
  destruct (page t) as [a|] eqn:Ha; [|done].
  destruct (st !! a) as [p|] eqn:Hp; [|done].
  injection Hrun as <-.
  eexists a, p, _. split; [done|]. split; [done|].
  split; [apply lookup_insert_eq|].
  unfold scrollOffset. rewrite Hv. simpl.
  repeat (split; [reflexivity|]).
  split; [intros b Hb; by apply lookup_insert_ne|].
  unfold hasContent, deref. rewrite Ha. simpl.
  by rewrite lookup_insert_eq, Hp.
Qed.

Lemma saveScroll_touches_only_row_and_column_witness :
  let t := mkTab (Some 1%positive) (Some (cview.mkTextView 7 3 [] false))
             modeOff (mkHistory [] 0) "" "" "" "" in
  let st : store := {[ 1%positive := example_page ["/a"] ]} in
  let st1 : store :=
    {[ 1%positive :=
         mkPage "gemini://example.org/" "text/gemini" "text/gemini" "" "text"
           0 ["/a"] 7 3 80 "" "" ModeOff "" 0 ]} in
  ∃ a p p1,
    page t = Some a ∧ st !! a = Some p ∧ st1 !! a = Some p1
    ∧ Some (Row p1, Column p1) = scrollOffset t
    ∧ URL p1 = URL p ∧ Mediatype p1 = Mediatype p
    ∧ RawMediatype p1 = RawMediatype p ∧ Raw p1 = Raw p
    ∧ Content p1 = Content p ∧ MaxPreCols p1 = MaxPreCols p
    ∧ Links p1 = Links p ∧ TermWidth p1 = TermWidth p
    ∧ Selected p1 = Selected p ∧ SelectedID p1 = SelectedID p
    ∧ Mode p1 = Mode p ∧ Favicon p1 = Favicon p ∧ MadeAt p1 = MadeAt p
    ∧ Size p1 = Size p
    ∧ (∀ b, b ≠ a → st1 !! b = st !! b)
    ∧ hasContent st1 t = hasContent st t.
Proof.
  intros t st st1.
  apply (saveScroll_touches_only_row_and_column st st1 t).
  apply (f_equal Ok). apply map_eq. intros i.
  destruct (decide (i = 1%positive)) as [->|Hne].
  - reflexivity.
  - unfold st, st1. by rewrite lookup_insert_ne, !lookup_singleton_ne.
Defined.

(** X9. Both scroll functions fail exactly when the tab has no view or no
    page, the two cases [hasContent] rules out first: on a tab that has
    content neither of them can panic. *)
Theorem scroll_functions_panic_iff_nil (st : store) t :
  (saveScroll st t = Panic NilDereference ↔ view t = None ∨ deref st t = None)
  ∧ (applyScroll st t = Panic NilDereference ↔ view t = None ∨ deref st t = None)
  ∧ (hasContent st t = true →
     ∃ st1 t1, saveScroll st t = Ok st1 ∧ applyScroll st t = Ok t1).
Proof.
  unfold saveScroll, applyScroll, hasContent, deref.
  destruct (view t) as [[lo co hl sth]|], (page t) as [a|]; simpl;
    try destruct (st !! a) as [p|]; simpl;
    (split; [split; [try done; auto | intros [?|?]; done]|]);
    (split; [split; [try done; auto | intros [?|?]; done]|]);
    try done.
  intros _. eauto.
Qed.

(** X10. The scroll position travels with the page, not with the tab:
    once one holder of a page has saved its offset, [applyScroll] on any
    other tab pointing at the same page puts that tab's viewport at the
    saved offset, whatever its own viewport showed. *)
Theorem saved_scroll_is_shared_by_holders (st st1 : store) t1 t2 v2 a :
  page t1 = Some a → page t2 = Some a → view t2 = Some v2 →
  saveScroll st t1 = Ok st1 →
  ∃ t2', applyScroll st1 t2 = Ok t2'
         ∧ scrollOffset t2' = scrollOffset t1
         ∧ (cview.GetHighlights <$> view t2') = Some (cview.GetHighlights v2).
Proof.
  intros Ha1 Ha2 Hv2 Hsave. unfold saveScroll in Hsave.
  destruct (view t1) as [[lo co hl sth]|] eqn:Hv1; [|done].
  simpl in Hsave. rewrite Ha1 in Hsave.
  destruct (st !! a) as [p|] eqn:Hp; [|done].
  injection Hsave as <-.
  unfold applyScroll, deref. rewrite Ha2. simpl.
  rewrite lookup_insert_eq, Hv2. eexists. split; [done|].
  unfold scrollOffset. rewrite Hv1. done.
Qed.

Lemma saved_scroll_is_shared_by_holders_witness :
  let t1 := mkTab (Some 1%positive) (Some (cview.mkTextView 7 3 [] false))
              modeOff (mkHistory [] 0) "" "" "" "" in
  let t2 := mkTab (Some 1%positive) (Some (cview.mkTextView 0 0 ["2"] false))
              modeOff (mkHistory [] 0) "" "" "" "" in
  let st : store := {[ 1%positive := example_page ["/a"] ]} in
  ∃ st1 t2', saveScroll st t1 = Ok st1
         ∧ applyScroll st1 t2 = Ok t2'
         ∧ scrollOffset t2' = scrollOffset t1
         ∧ (cview.GetHighlights <$> view t2') = Some ["2"].
Proof.
  intros t1 t2 st. eexists _.
  assert (Hsave : saveScroll st t1
                  = Ok (<[1%positive :=
                           mkPage "gemini://example.org/" "text/gemini"
                             "text/gemini" "" "text" 0 ["/a"] 7 3 80 "" ""
                             ModeOff "" 0]> st)) by reflexivity.
  destruct (saved_scroll_is_shared_by_holders st _ t1 t2
              (cview.mkTextView 0 0 ["2"] false) 1%positive
              eq_refl eq_refl eq_refl Hsave) as (t2' & Happly & Hoff & Hhl).
  exists t2'. split; [exact Hsave|]. split; [exact Happly|]. split; assumption.
Defined.

(** X11. [makeNewTab] gives the new tab a page of its own: its address
    held no page before, every page already in the store is left as it
    was, and the new tab (empty page, mode off) has no content. *)
Theorem makeNewTab_allocates_a_fresh_page (st : store) :
  ∃ a, page (makeNewTab st).1 = Some a
       ∧ st !! a = None
       ∧ (makeNewTab st).2 !! a = Some emptyPage
       ∧ (∀ b, b ≠ a → (makeNewTab st).2 !! b = st !! b)
       ∧ (∀ b p, st !! b = Some p → (makeNewTab st).2 !! b = Some p)
       ∧ hasContent (makeNewTab st).2 (makeNewTab st).1 = false
       ∧ mode (makeNewTab st).1 = modeOff.
Proof.
  unfold makeNewTab. set (a := fresh (dom st)).
  assert (Hfresh : st !! a = None).
  { apply not_elem_of_dom. apply is_fresh. }
  clearbody a. exists a. simpl.
  split; [done|]. split; [done|].
  split; [apply lookup_insert_eq|].
  split; [intros b Hb; by apply lookup_insert_ne|].
  split.
  - intros b p Hb. rewrite lookup_insert_ne; [done|].
    intros Heq. rewrite <- Heq in Hb. unfold addr in *. congruence.
  - unfold hasContent, deref. simpl. by rewrite lookup_insert_eq.
Qed.

(** * Further properties of the key handler *)

(** ** What a run leaves alone *)

Lemma tab_frame_refl t : tab_frame t t.
Proof. unfold tab_frame. auto. Qed.

Lemma tab_frame_trans t1 t2 t3 :
  tab_frame t1 t2 → tab_frame t2 t3 → tab_frame t1 t3.
Proof.
  unfold tab_frame. intros (Hp1 & Hh1 & Hm1) (Hp2 & Hh2 & Hm2).
  repeat split; try congruence.
  destruct Hm1 as [Hm1|Hm1], Hm2 as [Hm2|Hm2]; rewrite Hm2; auto.
Qed.

Lemma keeps_frame_ret {A} (a : A) : keeps_frame (mret a).
Proof. intros s. apply tab_frame_refl. Qed.

Lemma keeps_frame_stop {A} h : keeps_frame (@stop A h).
Proof. intros s. apply tab_frame_refl. Qed.

Lemma keeps_frame_lift {A} (r : result A) : keeps_frame (lift r).
Proof. destruct r; [apply keeps_frame_ret|apply keeps_frame_stop]. Qed.

Lemma keeps_frame_bind {A B} (m : M A) (f : A → M B) :
  keeps_frame m → (∀ a, keeps_frame (f a)) → keeps_frame (m ≫= f).
Proof.
  intros Hm Hf s. specialize (Hm s).
  unfold mbind, M_bind. destruct (m s) as [a s1|h s1]; [|done].
  specialize (Hf a s1). destruct (f a s1); by eapply tab_frame_trans.
Qed.

Lemma keeps_frame_getView : keeps_frame getView.
Proof. intros s. unfold getView. destruct (view (f_tab s)); apply tab_frame_refl. Qed.

Lemma keeps_frame_getPage pg : keeps_frame (getPage pg).
Proof. destruct pg; [apply keeps_frame_ret|apply keeps_frame_stop]. Qed.

Lemma keeps_frame_withBar f : keeps_frame (withBar f).
Proof. intros s. apply tab_frame_refl. Qed.

Lemma keeps_frame_withView f : keeps_frame (withView f).
Proof.
  intros s. unfold withView, mbind, M_bind, getView.
  destruct (view (f_tab s)) as [v|] eqn:Hv; [|apply tab_frame_refl].
  unfold putView, focus_frame, tab_frame. simpl. auto.
Qed.

Lemma keeps_frame_mode_off : keeps_frame (withTab (set_mode modeOff)).
Proof. intros s. unfold focus_frame, tab_frame. simpl. auto. Qed.

Lemma keeps_frame_selected l : keeps_frame (withTab (set_selected l)).
Proof. intros s. unfold focus_frame, tab_frame. simpl. auto. Qed.

Lemma keeps_frame_selectedID id : keeps_frame (withTab (set_selectedID id)).
Proof. intros s. unfold focus_frame, tab_frame. simpl. auto. Qed.

Ltac frame_step :=
  first
    [ apply keeps_frame_withView
    | apply keeps_frame_withBar
    | apply keeps_frame_mode_off
    | apply keeps_frame_selected
    | apply keeps_frame_selectedID
    | apply keeps_frame_getView
    | apply keeps_frame_getPage
    | apply keeps_frame_lift
    | apply keeps_frame_ret
    | apply keeps_frame_stop
    | apply keeps_frame_bind; [|intros ?]
    | match goal with
      | |- keeps_frame (if ?b then _ else _) => destruct b
      | |- keeps_frame (match ?x with _ => _ end) => destruct x
      end ].

Lemma doneFunc_body_keeps_frame tab pg key :
  keeps_frame (doneFunc_body tab pg key).
Proof. unfold doneFunc_body. repeat frame_step. Qed.

(** X12. Whatever the key and whatever the state, the statements of the
    handler never change the current tab's page pointer or its history,
    and they change the mode only by switching it off (the handler never
    puts a tab into link-select mode).  This holds of the state the
    handler leaves when it returns or panics, and of the state in which
    it calls [followLink]; what [followLink] does is not the handler's. *)
Theorem doneFunc_keeps_page_and_history key w t :
  index (tabs w) (curTab w) = Ok t →
  ∃ t', index (tabs (doneFunc key w).2) (curTab w) = Ok t'
        ∧ page t' = page t ∧ history t' = history t
        ∧ (mode t' = mode t ∨ mode t' = modeOff).
Proof.
  intros Ht. rewrite (doneFunc_on_tab key w t Ht).
  pose proof (doneFunc_body_keeps_frame (curTab w) (deref (pages w) t) key
                (mkFocus t (bottomBar w))) as Hframe.
  destruct (doneFunc_body _ _ _ _) as [[] s|[|e|i b r] s]; simpl in *;
    (eexists; split; [by apply (index_insert _ _ t)|]);
    destruct Hframe as (Hp & Hh & Hm); auto.
Qed.

Lemma doneFunc_keeps_page_and_history_witness :
  let t := mkTab (Some 1%positive) (Some (example_view "1")) modeLinkSelect
             (mkHistory ["gemini://example.org/"] 0) "" "" "" "" in
  let w := mkWorld {[ 1%positive := example_page ["/a"; "/b"] ]} [t] 0 24
             (cview.mkInputField "" "") in
  (doneFunc KeyEsc w).1 = Returns
  ∧ ∃ t', index (tabs (doneFunc KeyEsc w).2) 0 = Ok t'
          ∧ page t' = Some 1%positive
          ∧ history t' = mkHistory ["gemini://example.org/"] 0
          ∧ (mode t' = modeLinkSelect ∨ mode t' = modeOff).
Proof.
  intros t w. split; [reflexivity|].
  apply (doneFunc_keeps_page_and_history KeyEsc w t). reflexivity.
Defined.


(** X14. A tab without a view, or without a page, cannot take any key:
    the handler panics on the nil pointer whichever key is pressed. *)
Theorem doneFunc_panics_on_nil_view_or_page key w t :
  index (tabs w) (curTab w) = Ok t →
  view t = None ∨ deref (pages w) t = None →
  (doneFunc key w).1 = Panics NilDereference.
Proof.
  intros Ht Hnil. rewrite (doneFunc_on_tab key w t Ht).
  destruct t as [pg vw md hs sel sid bl bt]. simpl in Hnil.
  unfold doneFunc_body.
  destruct vw as [[lo co hl sth]|].
  - destruct Hnil as [?|Hpg]; [done|]. rewrite Hpg.
    destruct key; simpl bool_decide; run_M; reflexivity.
  - destruct key; simpl bool_decide; run_M; reflexivity.
Qed.

Lemma doneFunc_panics_on_nil_view_or_page_witness :
  let t := mkTab None (Some cview.NewTextView) modeOff (mkHistory [] 0)
             "" "" "" "" in
  let w := mkWorld ∅ [t] 0 24 (cview.mkInputField "" "") in
  (doneFunc KeyTab w).1 = Panics NilDereference.
Proof.
  intros t w.
  apply (doneFunc_panics_on_nil_view_or_page KeyTab w t);
    [reflexivity | right; reflexivity].
Defined.

(** X15. Unless it ends in [followLink], a run that found its tab has
    saved the bottom bar into it on the way out, on a normal return and
    on a panic alike: the tab's [barLabel] and [barText] are the bar's
    label and text. *)
Theorem doneFunc_saves_the_bar_on_exit key w t :
  index (tabs w) (curTab w) = Ok t →
  (∀ i b r, (doneFunc key w).1 ≠ Follows i b r) →
  ∃ t', index (tabs (doneFunc key w).2) (curTab w) = Ok t'
        ∧ barLabel t' = cview.GetLabel (bottomBar (doneFunc key w).2)
        ∧ barText t' = cview.GetText (bottomBar (doneFunc key w).2).
Proof.
  intros Ht. rewrite (doneFunc_on_tab key w t Ht).
  destruct (doneFunc_body _ _ _ _) as [[] s|[|e|i b r] s]; simpl; intros Hnf;
    try (eexists; split; [by apply (index_insert _ _ t)|done]).
  by destruct (Hnf i b r).
Qed.

Lemma doneFunc_saves_the_bar_on_exit_witness :
  let w := example_world ["/a"; "/b"; "/c"] "1" in
  ∃ t', index (tabs (doneFunc KeyTab w).2) 0 = Ok t'
        ∧ barLabel t' = cview.GetLabel (bottomBar (doneFunc KeyTab w).2)
        ∧ barText t' = cview.GetText (bottomBar (doneFunc KeyTab w).2).
Proof.
  intros w.
  apply (doneFunc_saves_the_bar_on_exit KeyTab w (example_tab "1"));
    [reflexivity | intros i b r; vm_compute; discriminate].
Defined.

(** ** The remaining transitions *)

(** X16. Esc, whatever is highlighted: the handler returns, no region is
    highlighted any more, the tab's mode is off, and the bar has an empty
    label and the page's own URL as text.  The tab's [selected] and
    [selectedID] are not cleared: they keep the last selection. *)
Theorem esc_clears_the_highlight w t v p :
  index (tabs w) (curTab w) = Ok t → view t = Some v →
  deref (pages w) t = Some p →
  ∃ t' v',
    (doneFunc KeyEsc w).1 = Returns
    ∧ index (tabs (doneFunc KeyEsc w).2) (curTab w) = Ok t'
    ∧ view t' = Some v' ∧ cview.GetHighlights v' = []
    ∧ mode t' = modeOff
    ∧ bottomBar (doneFunc KeyEsc w).2 = cview.mkInputField "" (URL p)
    ∧ barLabel t' = "" ∧ barText t' = URL p
    ∧ selected t' = selected t ∧ selectedID t' = selectedID t.
Proof.
  intros Ht Hv Hp. rewrite (doneFunc_on_tab KeyEsc w t Ht), Hp.
  destruct t as [pg vw md hs sel sid bl bt], v as [lo co hl sth].
  simpl in Hv. subst vw.
  unfold doneFunc_body. simpl bool_decide. run_M.
  eexists _, _. split; [done|].
  split; [by apply (index_insert _ _ (mkTab pg (Some (cview.mkTextView lo co hl sth)) md hs sel sid bl bt))|].
  simpl. repeat split.
Qed.

Lemma esc_clears_the_highlight_witness :
  let w := example_world ["/a"; "/b"; "/c"] "1" in
  ∃ t' v',
    (doneFunc KeyEsc w).1 = Returns
    ∧ index (tabs (doneFunc KeyEsc w).2) 0 = Ok t'
    ∧ view t' = Some v' ∧ cview.GetHighlights v' = []
    ∧ mode t' = modeOff
    ∧ bottomBar (doneFunc KeyEsc w).2
      = cview.mkInputField "" "gemini://example.org/"
    ∧ barLabel t' = "" ∧ barText t' = "gemini://example.org/"
    ∧ selected t' = "" ∧ selectedID t' = "".
Proof.
  intros w.
  apply (esc_clears_the_highlight w (example_tab "1") (example_view "1")
           (example_page ["/a"; "/b"; "/c"])); reflexivity.
Defined.

(** X17. Enter with nothing highlighted, on a page that has links: the
    handler returns with region "0" highlighted (an id that reads as
    index 0), the bar showing the link label and the first link, and
    [selected] and [selectedID] set to the first link and "0".  The mode
    is left as it was: selecting goes by the highlight, not the mode. *)
Theorem enter_selects_the_first_link w t v p l0 ls :
  index (tabs w) (curTab w) = Ok t → view t = Some v →
  deref (pages w) t = Some p →
  cview.GetHighlights v = [] → Links p = l0 :: ls →
  ∃ t' v',
    (doneFunc KeyEnter w).1 = Returns
    ∧ index (tabs (doneFunc KeyEnter w).2) (curTab w) = Ok t'
    ∧ view t' = Some v' ∧ cview.GetHighlights v' = ["0"]
    ∧ strconv.Atoi "0" = (0, None)
    ∧ cview.scrollToHighlights v' = true
    ∧ bottomBar (doneFunc KeyEnter w).2 = cview.mkInputField link_label l0
    ∧ selected t' = l0 ∧ selectedID t' = "0"
    ∧ mode t' = mode t.
Proof.
  intros Ht Hv Hp Hh Hlinks. rewrite (doneFunc_on_tab KeyEnter w t Ht), Hp.
  destruct t as [pg vw md hs sel sid bl bt], v as [lo co hl sth].
  simpl in Hv, Hh. subst vw hl.
  unfold doneFunc_body. simpl bool_decide. run_M. rewrite Hlinks. simpl.
  eexists _, _. split; [done|].
  split; [by apply (index_insert _ _ (mkTab pg (Some (cview.mkTextView lo co [] sth)) md hs sel sid bl bt))|].
  simpl. repeat split.
Qed.

Lemma enter_selects_the_first_link_witness :
  let t := mkTab (Some 1%positive) (Some cview.NewTextView) modeOff
             (mkHistory [] 0) "" "" "" "" in
  let w := mkWorld {[ 1%positive := example_page ["/a"; "/b"] ]} [t] 0 24
             (cview.mkInputField "" "") in
  ∃ t' v',
    (doneFunc KeyEnter w).1 = Returns
    ∧ index (tabs (doneFunc KeyEnter w).2) 0 = Ok t'
    ∧ view t' = Some v' ∧ cview.GetHighlights v' = ["0"]
    ∧ strconv.Atoi "0" = (0, None)
    ∧ cview.scrollToHighlights v' = true
    ∧ bottomBar (doneFunc KeyEnter w).2 = cview.mkInputField link_label "/a"
    ∧ selected t' = "/a" ∧ selectedID t' = "0"
    ∧ mode t' = modeOff.
Proof.
  intros t w.
  apply (enter_selects_the_first_link w t cview.NewTextView
           (example_page ["/a"; "/b"]) "/a" ["/b"]); reflexivity.
Defined.

(** X18. Keys the handler absorbs.  A key other than Enter and Esc with
    nothing highlighted, and a key other than Enter, Esc, Tab and Backtab
    with a highlight, change nothing: the view, the mode, the selection
    and the bar are as before, and the only write is the bar's snapshot
    into the tab. *)
Theorem other_keys_are_absorbed key w t v p :
  index (tabs w) (curTab w) = Ok t → view t = Some v →
  deref (pages w) t = Some p →
  key ≠ KeyEnter → key ≠ KeyEsc →
  cview.GetHighlights v = [] ∨ key = KeyOther →
  doneFunc key w
  = (Returns,
     mkWorld (pages w)
       (<[Z.to_nat (curTab w) := saveBottomBar (bottomBar w) t]> (tabs w))
       (curTab w) (termH w) (bottomBar w)).
Proof.
  intros Ht Hv Hp Henter Hesc Hcase.
  rewrite (doneFunc_on_tab key w t Ht), Hp.
  destruct t as [pg vw md hs sel sid bl bt], v as [lo co hl sth].
  simpl in Hv, Hcase. subst vw.
  unfold doneFunc_body.
  destruct key; try done; simpl bool_decide; run_M;
    destruct hl as [|id rest]; try reflexivity;
    destruct Hcase as [?|?]; done.
Qed.

Lemma other_keys_are_absorbed_witness :
  let w := example_world ["/a"; "/b"; "/c"] "1" in
  doneFunc KeyOther w
  = (Returns,
     mkWorld (pages w)
       (<[Z.to_nat 0 := saveBottomBar (bottomBar w) (example_tab "1")]> (tabs w))
       0 24 (bottomBar w)).
Proof.
  intros w.
  apply (other_keys_are_absorbed KeyOther w (example_tab "1") (example_view "1")
           (example_page ["/a"; "/b"; "/c"]));
    [reflexivity | reflexivity | reflexivity | discriminate | discriminate
    | right; reflexivity].
Defined.

(** X19. Tab or Backtab with a region highlighted on a page without links
    divides by the link count: the handler panics with an integer
    division by zero, before the view or the bar is touched. *)
Theorem cycling_without_links_divides_by_zero key w t v p id rest :
  index (tabs w) (curTab w) = Ok t → view t = Some v →
  deref (pages w) t = Some p → cview.GetHighlights v = id :: rest →
  key = KeyTab ∨ key = KeyBacktab → Links p = [] →
  doneFunc key w
  = (Panics IntegerDivideByZero,
     mkWorld (pages w)
       (<[Z.to_nat (curTab w) := saveBottomBar (bottomBar w) t]> (tabs w))
       (curTab w) (termH w) (bottomBar w)).
Proof.
  intros Ht Hv Hp Hh Hkey Hlinks.
  rewrite (doneFunc_on_tab key w t Ht), Hp.
  destruct t as [pg vw md hs sel sid bl bt], v as [lo co hl sth].
  simpl in Hv, Hh. subst vw hl.
  unfold doneFunc_body.
  destruct Hkey as [-> | ->]; simpl bool_decide; run_M;
    rewrite Hlinks; reflexivity.
Qed.

Lemma cycling_without_links_divides_by_zero_witness :
  let w := example_world [] "note" in
  doneFunc KeyTab w
  = (Panics IntegerDivideByZero,
     mkWorld (pages w)
       (<[Z.to_nat 0 := saveBottomBar (bottomBar w) (example_tab "note")]> (tabs w))
       0 24 (bottomBar w)).
Proof.
  intros w.
  apply (cycling_without_links_divides_by_zero KeyTab w (example_tab "note")
           (example_view "note") (example_page []) "note" []);
    [reflexivity | reflexivity | reflexivity | reflexivity
    | left; reflexivity | reflexivity].
Defined.

(** X20. Enter with a highlight whose id reads as a number that is not
    the index of a link (negative, or not below the link count), on a
    page with links: the handler panics on [Links[linkN]], and by then it
    has already switched the mode off and cleared the bar's label. *)
Theorem enter_with_index_out_of_range_panics w t v p id rest :
  index (tabs w) (curTab w) = Ok t → view t = Some v →
  deref (pages w) t = Some p → cview.GetHighlights v = id :: rest →
  Links p ≠ [] →
  (strconv.Atoi id).1 < 0 ∨ GoInt.len (Links p) <= (strconv.Atoi id).1 →
  ∃ t',
    (doneFunc KeyEnter w).1 = Panics IndexOutOfRange
    ∧ index (tabs (doneFunc KeyEnter w).2) (curTab w) = Ok t'
    ∧ mode t' = modeOff ∧ view t' = view t
    ∧ bottomBar (doneFunc KeyEnter w).2
      = cview.mkInputField "" (cview.GetText (bottomBar w)).
Proof.
  intros Ht Hv Hp Hh Hlinks Hout.
  rewrite (doneFunc_on_tab KeyEnter w t Ht), Hp.
  destruct t as [pg vw md hs sel sid bl bt], v as [lo co hl sth].
  simpl in Hv, Hh. subst vw hl.
  assert (Hsome : (0 <? GoInt.len (Links p)) = true).
  { destruct (Links p); [done|reflexivity]. }
  assert (Hidx : index (Links p) (strconv.Atoi id).1 = Panic IndexOutOfRange).
  { unfold index.
    destruct (Z.ltb_spec (strconv.Atoi id).1 0) as [?|?]; [done|].
    destruct (Z.leb_spec (GoInt.len (Links p)) (strconv.Atoi id).1) as [?|?];
      [done|lia]. }
  unfold doneFunc_body. simpl bool_decide. run_M.
  rewrite Hsome. simpl. rewrite Hidx. simpl.
  eexists. split; [done|].
  split; [by apply (index_insert _ _ (mkTab pg (Some (cview.mkTextView lo co (id :: rest) sth)) md hs sel sid bl bt))|].
  simpl. repeat split.
Qed.

Lemma enter_with_index_out_of_range_panics_witness :
  let w := example_world ["/a"; "/b"; "/c"] "7" in
  ∃ t',
    (doneFunc KeyEnter w).1 = Panics IndexOutOfRange
    ∧ index (tabs (doneFunc KeyEnter w).2) 0 = Ok t'
    ∧ mode t' = modeOff ∧ view t' = view (example_tab "7")
    ∧ bottomBar (doneFunc KeyEnter w).2
      = cview.mkInputField "" (cview.GetText (bottomBar w)).
Proof.
  intros w.
  apply (enter_with_index_out_of_range_panics w (example_tab "7")
           (example_view "7") (example_page ["/a"; "/b"; "/c"]) "7" []);
    [reflexivity | reflexivity | reflexivity | reflexivity | discriminate
    | right; vm_compute; discriminate].
Defined.

(** ** Keys in a row *)

Lemma next_index_inverse i n :
  0 <= i < n →
  next_index KeyBacktab (next_index KeyTab i n) n = i
  ∧ next_index KeyTab (next_index KeyBacktab i n) n = i.
Proof.
  intros Hi. unfold next_index. split.
  - destruct (Z.eq_dec (i + 1) n) as [Hlast|Hnot].
    + rewrite Hlast, Z.mod_same by lia.
      rewrite Z.mod_small by lia. lia.
    + rewrite (Z.mod_small (i + 1)) by lia.
      replace (i + 1 - 1 + n) with (i + 1 * n) by lia.
      rewrite Z.mod_add, Z.mod_small by lia. done.
  - destruct (Z.eq_dec i 0) as [Hfirst|Hnot].
    + subst i. rewrite (Z.mod_small (0 - 1 + n)) by lia.
      replace (0 - 1 + n + 1) with n by lia. by rewrite Z.mod_same by lia.
    + replace (i - 1 + n) with (i - 1 + 1 * n) by lia.
      rewrite Z.mod_add, (Z.mod_small (i - 1)) by lia.
      replace (i - 1 + 1) with i by lia. by rewrite Z.mod_small by lia.
Qed.

(** The world after Enter has started a selection. *)
Lemma doneFunc_enter_start w t v p l0 ls :
  index (tabs w) (curTab w) = Ok t → view t = Some v →
  deref (pages w) t = Some p →
  cview.GetHighlights v = [] → Links p = l0 :: ls →
  doneFunc KeyEnter w
  = (Returns,
     commit w (curTab w)
       (deferred
          (mkFocus
             (set_selectedID "0"
                (set_selected l0
                   (set_view (cview.mkTextView (cview.lineOffset v)
                                (cview.columnOffset v) ["0"] true) t)))
             (link_bar l0 (bottomBar w))))).
Proof.
  intros Ht Hv Hp Hh Hlinks. rewrite (doneFunc_on_tab KeyEnter w t Ht), Hp.
  destruct t as [pg vw md hs sel sid bl bt], v as [lo co hl sth].
  simpl in Hv, Hh. subst vw hl.
  unfold doneFunc_body. simpl bool_decide. run_M. by rewrite Hlinks.
Qed.

(** The world after Esc. *)
Lemma doneFunc_esc w t v p :
  index (tabs w) (curTab w) = Ok t → view t = Some v →
  deref (pages w) t = Some p →
  doneFunc KeyEsc w
  = (Returns,
     commit w (curTab w)
       (deferred
          (mkFocus
             (set_mode modeOff
                (set_view (cview.mkTextView (cview.lineOffset v)
                             (cview.columnOffset v) []
                             (cview.scrollToHighlights v)) t))
             (cview.mkInputField "" (URL p))))).
Proof.
  intros Ht Hv Hp. rewrite (doneFunc_on_tab KeyEsc w t Ht), Hp.
  destruct t as [pg vw md hs sel sid bl bt], v as [lo co hl sth].
  simpl in Hv. subst vw.
  unfold doneFunc_body. simpl bool_decide. by run_M.
Qed.

(** X21. Tab and Backtab undo each other.  From a highlight that reads as
    a link index [i], one of the two keys followed by the other brings
    the highlight back to the region named by [i], with the bar and
    [selected] showing link [i] again; [selectedID], one step behind,
    holds the id of the link visited in between. *)
Theorem tab_and_backtab_undo_each_other w t v p id rest k1 k2 :
  index (tabs w) (curTab w) = Ok t → view t = Some v →
  deref (pages w) t = Some p → cview.GetHighlights v = id :: rest →
  (k1 = KeyTab ∧ k2 = KeyBacktab) ∨ (k1 = KeyBacktab ∧ k2 = KeyTab) →
  0 <= (strconv.Atoi id).1 < GoInt.len (Links p) →
  2 * GoInt.len (Links p) <= GoInt.max_int →
  let i := (strconv.Atoi id).1 in
  let j := next_index k1 i (GoInt.len (Links p)) in
  let w1 := (doneFunc k1 w).2 in
  ∃ l t',
    (doneFunc k1 w).1 = Returns ∧ (doneFunc k2 w1).1 = Returns
    ∧ index (tabs (doneFunc k2 w1).2) (curTab w) = Ok t'
    ∧ cview.GetHighlights <$> view t' = Some [strconv.Itoa i]
    ∧ Links p !! Z.to_nat i = Some l
    ∧ selected t' = l ∧ selectedID t' = strconv.Itoa j
    ∧ bottomBar (doneFunc k2 w1).2 = cview.mkInputField link_label l.
Proof.
  intros Ht Hv Hp Hh Hkeys Hi Hn i j w1.
  assert (Hk1 : k1 = KeyTab ∨ k1 = KeyBacktab) by (destruct Hkeys as [[? ?]|[? ?]]; auto).
  assert (Hk2 : k2 = KeyTab ∨ k2 = KeyBacktab) by (destruct Hkeys as [[? ?]|[? ?]]; auto).
  destruct (doneFunc_cycle w t v p id rest k1 Ht Hv Hp Hh Hk1 Hi Hn)
    as (l1 & Hl1 & Hrun1). fold i j in Hl1, Hrun1.
  destruct (rem_next_index k1 _ _ Hk1 Hi Hn) as [_ Hj]. fold i j in Hj.
  assert (Hback : next_index k2 j (GoInt.len (Links p)) = i).
  { destruct (next_index_inverse i _ Hi) as [H1 H2].
    destruct Hkeys as [[-> ->]|[-> ->]]; done. }
  assert (Hread : (strconv.Atoi (strconv.Itoa j)).1 = j).
  { rewrite Atoi_Itoa; [done|lia]. }
  set (v1 := cview.mkTextView (cview.lineOffset v) (cview.columnOffset v)
               [strconv.Itoa j] true).
  set (t1 := saveBottomBar (link_bar l1 (bottomBar w)) (selecting j l1 id v t)).
  assert (Hw1 : w1 = commit w (curTab w) (mkFocus t1 (link_bar l1 (bottomBar w)))).
  { unfold w1. by rewrite Hrun1. }
  assert (Ht1 : index (tabs w1) (curTab w1) = Ok t1).
  { rewrite Hw1. simpl. by apply (index_insert _ _ t). }
  assert (Hp1 : deref (pages w1) t1 = Some p) by (by rewrite Hw1).
  assert (Hi1 : 0 <= (strconv.Atoi (strconv.Itoa j)).1 < GoInt.len (Links p))
    by (by rewrite Hread).
  destruct (doneFunc_cycle w1 t1 v1 p (strconv.Itoa j) [] k2 Ht1 eq_refl Hp1
              eq_refl Hk2 Hi1 Hn) as (l2 & Hl2 & Hrun2).
  rewrite Hread, Hback in Hl2, Hrun2.
  apply index_Ok in Hl2 as [_ Hl2].
  exists l2. eexists. rewrite Hrun1. split; [done|].
  rewrite Hrun2. split; [done|].
  replace (curTab w) with (curTab w1) by (by rewrite Hw1).
  split; [by apply (index_insert _ _ t1)|].
  simpl. repeat split. done.
Qed.

Lemma tab_and_backtab_undo_each_other_witness :
  let w := example_world ["/a"; "/b"; "/c"] "2" in
  let w1 := (doneFunc KeyTab w).2 in
  ∃ l t',
    (doneFunc KeyTab w).1 = Returns ∧ (doneFunc KeyBacktab w1).1 = Returns
    ∧ index (tabs (doneFunc KeyBacktab w1).2) 0 = Ok t'
    ∧ cview.GetHighlights <$> view t' = Some [strconv.Itoa 2]
    ∧ ["/a"; "/b"; "/c"] !! Z.to_nat 2 = Some l
    ∧ selected t' = l ∧ selectedID t' = strconv.Itoa 0
    ∧ bottomBar (doneFunc KeyBacktab w1).2 = cview.mkInputField link_label l.
Proof.
  intros w w1.
  apply (tab_and_backtab_undo_each_other w (example_tab "2") (example_view "2")
           (example_page ["/a"; "/b"; "/c"]) "2" [] KeyTab KeyBacktab);
    [reflexivity | reflexivity | reflexivity | reflexivity
    | left; split; reflexivity
    | vm_compute; split; [discriminate | reflexivity]
    | vm_compute; discriminate].
Defined.

(** X22. Enter pressed twice on a page with links, starting with nothing
    highlighted: the first Enter highlights link 0 and returns, the
    second ends in [followLink(tab, page.Url, Links[0])], entered with
    the mode off. *)
Theorem enter_twice_follows_the_first_link w t v p l0 ls :
  index (tabs w) (curTab w) = Ok t → view t = Some v →
  deref (pages w) t = Some p →
  cview.GetHighlights v = [] → Links p = l0 :: ls →
  let w1 := (doneFunc KeyEnter w).2 in
  (doneFunc KeyEnter w).1 = Returns
  ∧ (doneFunc KeyEnter w1).1 = Follows (curTab w) (URL p) l0
  ∧ (mode <$> tabs (doneFunc KeyEnter w1).2 !! Z.to_nat (curTab w)) = Some modeOff.
Proof.
  intros Ht Hv Hp Hh Hlinks w1.
  pose proof (doneFunc_enter_start w t v p l0 ls Ht Hv Hp Hh Hlinks) as Hrun1.
  unfold w1. rewrite Hrun1. split; [done|].
  match goal with |- context [commit w (curTab w) (deferred (mkFocus ?t0 ?b0))] =>
    set (t1 := saveBottomBar b0 t0); set (bar1 := b0) end.
  set (w2 := commit w (curTab w) (mkFocus t1 bar1)).
  change ((doneFunc KeyEnter w2).1 = Follows (curTab w2) (URL p) l0
          ∧ mode <$> tabs (doneFunc KeyEnter w2).2 !! Z.to_nat (curTab w2)
            = Some modeOff).
  assert (Ht1 : index (tabs w2) (curTab w2) = Ok t1).
  { simpl. by apply (index_insert _ _ t). }
  assert (Hp1 : deref (pages w2) t1 = Some p) by done.
  rewrite (doneFunc_on_tab KeyEnter w2 t1 Ht1), Hp1.
  rewrite (doneFunc_body_follow _ p t1 _ "0" [] l0 _ eq_refl eq_refl).
  - simpl. split; [done|].
    apply index_Ok in Ht as [_ Ht]. apply lookup_lt_Some in Ht.
    rewrite list_insert_insert_eq.
    by rewrite list_lookup_insert_eq.
  - rewrite Hlinks. reflexivity.
Qed.

Lemma enter_twice_follows_the_first_link_witness :
  let t := mkTab (Some 1%positive) (Some cview.NewTextView) modeOff
             (mkHistory [] 0) "" "" "" "" in
  let w := mkWorld {[ 1%positive := example_page ["/a"; "/b"] ]} [t] 0 24
             (cview.mkInputField "" "") in
  let w1 := (doneFunc KeyEnter w).2 in
  (doneFunc KeyEnter w).1 = Returns
  ∧ (doneFunc KeyEnter w1).1 = Follows 0 "gemini://example.org/" "/a"
  ∧ (mode <$> tabs (doneFunc KeyEnter w1).2 !! Z.to_nat 0) = Some modeOff.
Proof.
  intros t w.
  apply (enter_twice_follows_the_first_link w t cview.NewTextView
           (example_page ["/a"; "/b"]) "/a" ["/b"]); reflexivity.
Defined.

(** X23. Esc starts the selection over: after Esc, whatever was
    highlighted before, the next Enter on a page with links highlights
    link 0 again and follows nothing. *)
Theorem esc_then_enter_selects_the_first_link w t v p l0 ls :
  index (tabs w) (curTab w) = Ok t → view t = Some v →
  deref (pages w) t = Some p → Links p = l0 :: ls →
  let w1 := (doneFunc KeyEsc w).2 in
  ∃ t',
    (doneFunc KeyEsc w).1 = Returns ∧ (doneFunc KeyEnter w1).1 = Returns
    ∧ index (tabs (doneFunc KeyEnter w1).2) (curTab w) = Ok t'
    ∧ cview.GetHighlights <$> view t' = Some ["0"]
    ∧ selected t' = l0 ∧ selectedID t' = "0"
    ∧ bottomBar (doneFunc KeyEnter w1).2 = cview.mkInputField link_label l0.
Proof.
  intros Ht Hv Hp Hlinks w1.
  pose proof (doneFunc_esc w t v p Ht Hv Hp) as Hrun1.
  unfold w1. rewrite Hrun1.
  match goal with |- context [commit w (curTab w) (deferred (mkFocus ?t0 ?b0))] =>
    set (t1 := saveBottomBar b0 t0); set (bar1 := b0) end.
  set (w2 := commit w (curTab w) (mkFocus t1 bar1)).
  change (∃ t',
    Returns = Returns ∧ (doneFunc KeyEnter w2).1 = Returns
    ∧ index (tabs (doneFunc KeyEnter w2).2) (curTab w2) = Ok t'
    ∧ cview.GetHighlights <$> view t' = Some ["0"]
    ∧ selected t' = l0 ∧ selectedID t' = "0"
    ∧ bottomBar (doneFunc KeyEnter w2).2 = cview.mkInputField link_label l0).
  assert (Ht1 : index (tabs w2) (curTab w2) = Ok t1).
  { simpl. by apply (index_insert _ _ t). }
  assert (Hp1 : deref (pages w2) t1 = Some p) by done.
  rewrite (doneFunc_enter_start w2 t1 _ p l0 ls Ht1 eq_refl Hp1 eq_refl Hlinks).
  eexists. split; [done|]. split; [done|].
  split; [by apply (index_insert _ _ t1)|].
  simpl. repeat split.
Qed.

Lemma esc_then_enter_selects_the_first_link_witness :
  let w := example_world ["/a"; "/b"; "/c"] "2" in
  let w1 := (doneFunc KeyEsc w).2 in
  ∃ t',
    (doneFunc KeyEsc w).1 = Returns ∧ (doneFunc KeyEnter w1).1 = Returns
    ∧ index (tabs (doneFunc KeyEnter w1).2) 0 = Ok t'
    ∧ cview.GetHighlights <$> view t' = Some ["0"]
    ∧ selected t' = "/a" ∧ selectedID t' = "0"
    ∧ bottomBar (doneFunc KeyEnter w1).2 = cview.mkInputField link_label "/a".
Proof.
  intros w.
  apply (esc_then_enter_selects_the_first_link w (example_tab "2")
           (example_view "2") (example_page ["/a"; "/b"; "/c"]) "/a"
           ["/b"; "/c"]); reflexivity.
Defined.

(** ** Page size, overflow included *)

Lemma wrap_add_wrap a b : GoInt.wrap (GoInt.wrap a + b) = GoInt.wrap (a + b).
Proof.
  unfold GoInt.wrap.
  replace ((a + 2 ^ 63) `mod` 2 ^ 64 - 2 ^ 63 + b + 2 ^ 63)
    with ((a + 2 ^ 63) `mod` 2 ^ 64 + b) by lia.
  rewrite Zplus_mod_idemp_l. f_equal. f_equal. lia.
Qed.

Lemma Size_loop_wrap ls : ∀ x,
  fold_left (fun n l => GoInt.add n (GoInt.slen l)) ls (GoInt.wrap x)
  = GoInt.wrap (x + links_total ls).
Proof.
  induction ls as [|l ls IH]; intros x; simpl.
  - by rewrite Z.add_0_r.
  - unfold GoInt.add at 2. rewrite wrap_add_wrap, IH. f_equal. lia.
Qed.

Lemma links_total_Permutation ls1 ls2 :
  ls1 ≡ₚ ls2 → links_total ls1 = links_total ls2.
Proof. induction 1; simpl; lia. Qed.

(** X24. [Size] never fails and is always the byte total of the counted
    fields reduced to the range of [int]; so it does not depend on the
    order of the links, nor on any field that is not counted. *)
Theorem Size_is_wrapped_byte_total (p q : Page) :
  Size p = GoInt.wrap (byte_total p)
  ∧ (Raw q = Raw p → Content q = Content p → URL q = URL p →
     Selected q = Selected p → SelectedID q = SelectedID p →
     Links q ≡ₚ Links p → Size q = Size p).
Proof.
  assert (Hsize : ∀ r, Size r = GoInt.wrap (byte_total r)).
  { intros r. unfold Size, byte_total.
    unfold GoInt.add at 5. rewrite !(wrap_add_wrap _ _ : GoInt.add (GoInt.wrap _) _ = _).
    rewrite Size_loop_wrap. done. }
  split; [apply Hsize|].
  intros Hraw Hcontent Hurl Hsel Hid Hlinks.
  rewrite !Hsize. unfold byte_total.
  rewrite Hraw, Hcontent, Hurl, Hsel, Hid.
  by rewrite (links_total_Permutation _ _ Hlinks).
Qed.

(** ** Instances *)

Lemma paging_touches_only_the_row_witness :
  let v := cview.mkTextView 10 2 ["1"] false in
  let t := mkTab None (Some v) modeOff (mkHistory [] 0) "/b" "1" "" "" in
  let t' := set_view (cview.ScrollTo 28 2 v) t in
  pageDown 24 t = Ok t'
  ∧ ∃ v0 v',
      view t = Some v0 ∧ view t' = Some v'
      ∧ cview.columnOffset v' = cview.columnOffset v0
      ∧ cview.GetHighlights v' = cview.GetHighlights v0
      ∧ page t' = page t ∧ mode t' = mode t ∧ history t' = history t
      ∧ selected t' = selected t ∧ selectedID t' = selectedID t
      ∧ barLabel t' = barLabel t ∧ barText t' = barText t.
Proof.
  intros v t t'. split; [reflexivity|].
  apply (proj2 (paging_touches_only_the_row 24 t) t'). left. reflexivity.
Defined.

Lemma scroll_functions_panic_iff_nil_witness :
  let st : store := {[ 1%positive := example_page ["/a"] ]} in
  let t := example_tab "0" in
  hasContent st t = true
  ∧ ∃ st1 t1, saveScroll st t = Ok st1 ∧ applyScroll st t = Ok t1.
Proof.
  intros st t. split; [reflexivity|].
  apply (proj2 (proj2 (scroll_functions_panic_iff_nil st t))). reflexivity.
Defined.


Lemma Size_is_wrapped_byte_total_witness :
  let p := example_page ["/a"; "/bc"] in
  let q := mkPage "gemini://example.org/" "text/plain" "" "" "text" 3
             ["/bc"; "/a"] 9 1 120 "" "" ModeLinkSelect "x" 5 in
  Size q = Size p.
Proof.
  intros p q.
  apply (proj2 (Size_is_wrapped_byte_total p q)); try reflexivity.
  apply Permutation_swap.
Defined.
